(** * A store-and-forward SMTP relay: shallow embedding of [smtp_relay/app.py]

    The development models the intake handler [StoreHandler.handle_DATA], the
    per-recipient delivery routine [StoreHandler._deliver_to_recipient], the MX
    resolver [StoreHandler._get_mx_hosts] and the helper [envelope_from].

    Everything outside the program (process environment, disk, the SMTP
    peers, the DNS resolver, the standard-library header parser) is an
    explicit parameter; every call that leaves the process is recorded in a
    trace, so that ordering properties can be stated on the trace.  The
    answers of the disk and of the network may depend on everything that
    happened before, so the same call can succeed once and fail later.

    Conventions.  Python [str] values are strings of ASCII characters and
    [bytes] values are lists of bytes.  The exceptions are those the program
    raises itself and those of [smtplib], [dns.resolver] and the file
    system, all of which derive from [Exception]; interrupts of the
    interpreter are outside the model.  The handler has no [await], so one
    run of it is not interleaved with another. *)

From Stdlib Require Import ZArith Ascii String.
From Stdlib.Strings Require Import Byte.
From stdpp Require Import base option list gmap strings pretty sorting.

Local Open Scope string_scope.
Local Open Scope Z_scope.
Local Open Scope list_scope.

(** ** Python primitives used by the program *)

Module Py.

(** [bytes] objects. *)
Definition bytes := list byte.

Global Instance byte_eq_dec : EqDecision byte := Byte.byte_eq_dec.

(** A [bytes] literal. *)
Definition b (s : string) : bytes := list_byte_of_string s.

(** Truthiness of an [Optional[str]]: [None] and [""] are falsy. *)
Definition truthy (o : option string) : bool :=
  match o with
  | Some (String _ _) => true
  | _ => false
  end.

(** [x or d] for an [Optional[str]] that is only used after a truthiness
    test. *)
Definition str_of (o : option string) : string := default "" o.

(** [c in s] for a one-character [c]. *)
Fixpoint contains (c : ascii) (s : string) : bool :=
  match s with
  | "" => false
  | String a s' => if decide (a = c) then true else contains c s'
  end.

(** [str.isspace] on the ASCII range: TAB, LF, VT, FF, CR, FS, GS, RS, US
    and the space. *)
Definition isspace (a : ascii) : bool :=
  match a with
  | "009" | "010" | "011" | "012" | "013"
  | "028" | "029" | "030" | "031" | " " => true
  | _ => false
  end%char.

(** [s.lstrip(chars)], [s.rstrip(chars)] and [s.strip(chars)], with the
    character set given as a predicate. *)
Fixpoint lstrip (p : ascii → bool) (s : string) : string :=
  match s with
  | "" => ""
  | String a s' => if p a then lstrip p s' else s
  end.

Fixpoint rstrip (p : ascii → bool) (s : string) : string :=
  match s with
  | "" => ""
  | String a s' =>
      match rstrip p s' with
      | "" => if p a then "" else String a ""
      | t => String a t
      end
  end.

Definition strip (p : ascii → bool) (s : string) : string :=
  rstrip p (lstrip p s).

(** [s.split()]: the maximal runs of non-whitespace characters. *)
Fixpoint split_go (cur : option string) (s : string) : list string :=
  match s with
  | "" => option_list (String.rev <$> cur)
  | String a s' =>
      if isspace a
      then option_list (String.rev <$> cur) ++ split_go None s'
      else split_go (Some (String a (default "" cur))) s'
  end.

Definition split (s : string) : list string := split_go None s.

(** [s.split(sep, 1)] for a one-character separator: the whole string when
    [sep] does not occur, else the parts before and after its first
    occurrence. *)
Fixpoint split1 (sep : ascii) (s : string) : list string :=
  match s with
  | "" => [""]
  | String a s' =>
      if decide (a = sep) then [""; s']
      else match split1 sep s' with
           | h :: t => String a h :: t
           | [] => [String a ""]
           end
  end.

(** [int(s)] in base ten: surrounding whitespace, an optional sign, decimal
    digits that single underscores may separate.  [None] stands for
    [ValueError].

    The whitespace [int] skips is TAB, LF, VT, FF, CR and the space: of the
    ASCII characters that [str.isspace] accepts, FS, GS, RS and US make
    [int] raise.  (Strings are ASCII here; on other text [int] also takes
    the spaces and the decimal digits of Unicode.) *)
Definition int_space (a : ascii) : bool :=
  match a with
  | "009" | "010" | "011" | "012" | "013" | " " => true
  | _ => false
  end%char.

(** [sys.get_int_max_str_digits()], at its default (CPython 3.11 and the
    releases that carry the same limit): [int] raises on a string with more
    digit characters than this (leading zeros count; the sign, the
    underscores and the whitespace do not). *)
Definition int_max_str_digits : Z := 4300.

Fixpoint count_digits (s : string) : Z :=
  match s with
  | "" => 0
  | String a s' =>
      (match Ascii.is_nat a with Some _ => 1 | None => 0 end) + count_digits s'
  end.

Fixpoint digits (s : string) (acc : Z) (after_digit : bool) : option Z :=
  match s with
  | "" => if after_digit then Some acc else None
  | String a s' =>
      match Ascii.is_nat a with
      | Some d => digits s' (10 * acc + Z.of_nat d) true
      | None =>
          if decide (a = "_"%char)
          then (if after_digit then digits s' acc false else None)
          else None
      end
  end.

Definition int (s : string) : option Z :=
  let t := strip int_space s in
  if decide (count_digits t ≤ int_max_str_digits) then
    match t with
    | String "-" t' => Z.opp <$> digits t' 0 false
    | String "+" t' => digits t' 0 false
    | _ => digits t 0 false
    end
  else None.

(** Lexicographic comparison of [(int, str)] tuples, as [sorted] uses it:
    by the integer first, by code points of the string on a tie. *)
Definition tuple_le (x y : Z * string) : Prop :=
  x.1 < y.1 ∨ (x.1 = y.1 ∧ (x.2 ≤ y.2)%string).

Global Instance tuple_le_dec : RelDecision tuple_le.
Proof. intros x y. unfold tuple_le. apply _. Defined.

(** [sorted(l)] on such tuples. *)
Definition sorted (l : list (Z * string)) : list (Z * string) :=
  merge_sort tuple_le l.

End Py.

Import Py.

(** ** Exceptions, observable events and the program state *)

(** The exceptions the program can meet.  All of them derive from
    [Exception], so every [except Exception] clause catches them.
    [SMTPServerDisconnected] is the one exception of [smtplib] that leaving
    a [with] block treats apart; [SMTPException] stands for the others. *)
Inductive exn :=
| OSError (msg : string)
| ValueError (msg : string)
| IndexError (msg : string)
| RuntimeError (msg : string)
| SMTPException (msg : string)
| SMTPServerDisconnected (msg : string)
| DNSException (msg : string).

(** [isinstance(e, smtplib.SMTPServerDisconnected)] *)
Definition disconnected (e : exn) : bool :=
  match e with
  | SMTPServerDisconnected _ => true
  | _ => false
  end.

(** The methods of [smtplib.SMTP] the program calls; [Connect] is the
    constructor call [smtplib.SMTP(host, port, timeout=t)] and [Quit] the
    [QUIT] exchange that leaving the [with] block performs. *)
Inductive smtp_op :=
| Connect (host : string) (port : Z) (timeout : Z)
| Ehlo (name : option string)
| StartTLS
| Login (user password : string)
| Sendmail (from_addr : string) (to_addrs : list string) (msg : bytes)
| Quit.

(** One record of a DNS MX answer: [r.preference] and [str(r.exchange)]. *)
Record mx_rdata := MX { preference : Z; exchange : string }.

Inductive level := INFO | WARNING | ERROR.

Inductive logarg := ArgStr (s : string) | ArgInt (z : Z) | ArgExc (e : exn).

(** What the process does that its surroundings can see, in order. *)
Inductive event :=
| EvMakedirs (path : string) (raised : option exn)
| EvWrite (path : string) (data : bytes) (raised : option exn)
| EvSmtp (op : smtp_op) (raised : option exn)
| EvDns (domain : string) (answer : exn + list mx_rdata)
| EvLog (lvl : level) (fmt : string) (args : list logarg) (exc_info : option exn).

(** The outcome of [with open(path, "wb") as fh: fh.write(data)]: on an
    error the file may be absent or left with any content. *)
Inductive write_result :=
| WriteOk
| WriteErr (e : exn) (left_behind : option bytes).

(** What [email.message_from_bytes(content).get("From")] can do: raise,
    return [None], return a [str], or return a [Header] object (for a value
    with bytes outside ASCII), on which the test ["@" in frm] raises
    [TypeError]. *)
Inductive header_lookup :=
| HeaderRaises
| HeaderAbsent
| HeaderStr (value : string)
| HeaderObject.

(** The process environment and the header parser of the standard
    library. *)
Record Platform := {
  getenv : string → option string;
  email_From : bytes → header_lookup
}.

(** The disk, as the history so far decides it. *)
Record Disk := {
  os_makedirs : list event → string → option exn;
  open_write : list event → string → bytes → write_result
}.

(** The network: SMTP peers and the DNS resolver. *)
Record Net := {
  smtp : list event → smtp_op → option exn;
  dns_resolve_MX : list event → string → exn + list mx_rdata
}.

(** The files on disk (by path) and the events so far (oldest first). *)
Record state := State { files : gmap string bytes; trace : list event }.

(** The envelope of a session, as [aiosmtpd] hands it to the handler. *)
Record Envelope := {
  mail_from : string;
  rcpt_tos : list string;
  content : bytes
}.

(** ** A state and exception monad *)

(** A computation returns, raises, or does not end ([Hang]: only the search
    loop of [handle_DATA] could, and it is shown not to). *)
Inductive result (A : Type) :=
| Ret (a : A)
| Exc (e : exn)
| Hang.
Arguments Ret {A} a.
Arguments Exc {A} e.
Arguments Hang {A}.

Definition M (A : Type) : Type := state → result A * state.

Global Instance M_ret : MRet M := λ A a st, (Ret a, st).

Global Instance M_bind : MBind M := λ A B f m st,
  match m st with
  | (Ret a, st') => f a st'
  | (Exc e, st') => (Exc e, st')
  | (Hang, st') => (Hang, st')
  end.

Definition raise {A} (e : exn) : M A := λ st, (Exc e, st).

(** [try: m except Exception as e: ...] with the handler left to the
    caller. *)
Definition try {A} (m : M A) : M (A + exn) := λ st,
  match m st with
  | (Ret a, st') => (Ret (inl a), st')
  | (Exc e, st') => (Ret (inr e), st')
  | (Hang, st') => (Hang, st')
  end.

Definition emit (e : event) : M unit := λ st,
  (Ret tt, State (files st) (trace st ++ [e])).

(** [for x in l: f x] *)
Fixpoint for_each {A} (l : list A) (f : A → M unit) : M unit :=
  match l with
  | [] => mret tt
  | x :: l' => f x ;; for_each l' f
  end.

(** [logging.info], [logging.warning] and [logging.exception]. *)
Definition logging_info (fmt : string) (args : list logarg) : M unit :=
  emit (EvLog INFO fmt args None).

Definition logging_warning (fmt : string) (args : list logarg) : M unit :=
  emit (EvLog WARNING fmt args None).

Definition logging_exception (fmt : string) (args : list logarg) (e : exn) : M unit :=
  emit (EvLog ERROR fmt args (Some e)).

(** ** The program *)

Definition MAIL_DIR : string := "/app/mail_store".

(** [os.path.join(a, b)] for a relative [b] and an [a] without a trailing
    separator. *)
Definition os_path_join (a b : string) : string := a +:+ "/" +:+ b.

(** [os.path.join(MAIL_DIR, f"msg-{i}.eml")] *)
Definition msg_path (i : nat) : string :=
  os_path_join MAIL_DIR ("msg-" +:+ pretty i +:+ ".eml").

(** Membership in the character set of a [strip] argument. *)
Definition in_chars (cs : list ascii) (a : ascii) : bool := bool_decide (a ∈ cs).

(** The loop of [handle_DATA] that looks for the first unused
    [msg-<i>.eml], from [i]; [None] when [fuel] iterations did not find it. *)
Fixpoint probe (fuel : nat) (fs : gmap string bytes) (i : nat) : option nat :=
  match fuel with
  | O => None
  | S fuel' =>
      if decide (is_Some (fs !! msg_path i)) then probe fuel' fs (S i)
      else Some i
  end.

Section Program.
Context (P : Platform) (D : Disk) (N : Net).

(** [os.makedirs(path, exist_ok=True)] *)
Definition makedirs (path : string) : M unit := λ st,
  let r := os_makedirs D (trace st) path in
  let st' := State (files st) (trace st ++ [EvMakedirs path r]) in
  match r with
  | None => (Ret tt, st')
  | Some e => (Exc e, st')
  end.

(** [with open(path, "wb") as fh: fh.write(data)] *)
Definition write_file (path : string) (data : bytes) : M unit := λ st,
  match open_write D (trace st) path data with
  | WriteOk =>
      (Ret tt, State (<[path := data]> (files st))
                     (trace st ++ [EvWrite path data None]))
  | WriteErr e left_behind =>
      (Exc e, State (match left_behind with
                     | Some d => <[path := d]> (files st)
                     | None => files st
                     end)
                    (trace st ++ [EvWrite path data (Some e)]))
  end.

(** One call on an SMTP connection. *)
Definition smtp_call (op : smtp_op) : M unit := λ st,
  let r := smtp N (trace st) op in
  let st' := State (files st) (trace st ++ [EvSmtp op r]) in
  match r with
  | None => (Ret tt, st')
  | Some e => (Exc e, st')
  end.

(** [dns.resolver.resolve(domain, "MX")] *)
Definition dns_call (domain : string) : M (list mx_rdata) := λ st,
  let r := dns_resolve_MX N (trace st) domain in
  let st' := State (files st) (trace st ++ [EvDns domain r]) in
  match r with
  | inr answers => (Ret answers, st')
  | inl e => (Exc e, st')
  end.

(** [smtplib.SMTP.__exit__]: the [QUIT] exchange that leaving a [with]
    block performs.  [SMTPServerDisconnected] is caught and dropped there
    ([except SMTPServerDisconnected: pass]); any other exception of the
    exchange leaves the block. *)
Definition smtp_exit : M unit :=
  q ← try (smtp_call Quit) ;
  match q with
  | inl _ => mret tt
  | inr e => if disconnected e then mret tt else raise e
  end.

(** [with smtplib.SMTP(host, port, timeout=t) as s: body].  The constructor
    connects; leaving the block, normally or not, runs [__exit__]; an
    exception that leaves [__exit__] replaces the outcome of the body, and
    otherwise the outcome of the body stands. *)
Definition with_SMTP {A} (host : string) (port timeout : Z) (body : M A) : M A :=
  smtp_call (Connect host port timeout) ;;
  r ← try body ;
  smtp_exit ;;
  match r with
  | inl a => mret a
  | inr e => raise e
  end.

(** [envelope_from(content)], lines 132-153. *)
Definition envelope_from (content : bytes) : string :=
  let relay_user := getenv P "SMTP_RELAY_USERNAME" in
  if truthy relay_user then str_of relay_user
  else
    match email_From P content with
    | HeaderStr frm =>
        if truthy (Some frm) then
          if contains "@" frm then
            match last (split frm) with
            | Some tok => strip (in_chars ["<"; ">"; "010"; "013"]%char) tok
            | None => "postmaster@localhost"
            end
          else frm
        else "postmaster@localhost"
    | HeaderAbsent => "postmaster@localhost"
    | HeaderRaises => "postmaster@localhost"
    | HeaderObject => "postmaster@localhost"
    end.

(** [StoreHandler._get_mx_hosts(domain)], lines 62-67. *)
Definition _get_mx_hosts (domain : string) : M (list string) :=
  answers ← dns_call domain ;
  let mx := sorted ((λ r, (preference r, rstrip (in_chars ["."]%char) (exchange r)))
                      <$> answers) in
  mret (snd <$> mx).

(** Lines 86-105 of [_deliver_to_recipient]: the relay attempt.  The result
    is [true] when the [return] of line 101 is reached and [false] when the
    [except] clause of line 102 has run. *)
Definition relay_delivery (relay_host : string) (relay_port : Z)
    (relay_user relay_pass : option string) (relay_starttls : bool)
    (rcpt : string) (content : bytes) : M bool :=
  r ← try (
    let port := if decide (relay_port = 0) then 587 else relay_port in
    logging_info "Using outbound relay %s:%s for %s"
      [ArgStr relay_host; ArgInt port; ArgStr rcpt] ;;
    with_SMTP relay_host port 60 (
      smtp_call (Ehlo (Some "local-relay")) ;;
      (if relay_starttls
       then smtp_call StartTLS ;; smtp_call (Ehlo None)
       else mret tt) ;;
      (if truthy relay_user && truthy relay_pass
       then smtp_call (Login (str_of relay_user) (str_of relay_pass))
       else mret tt) ;;
      smtp_call (Sendmail (envelope_from content) [rcpt] content)) ;;
    logging_info "Delivered message to %s via relay %s"
      [ArgStr rcpt; ArgStr relay_host]) ;
  match r with
  | inl _ => mret true
  | inr exc =>
      logging_exception "Relay delivery to %s via %s failed"
        [ArgStr rcpt; ArgStr relay_host] exc ;;
      mret false
  end.

(** Lines 116-123 of [_deliver_to_recipient]: the body of the [try] for one
    MX host. *)
Definition mx_attempt (rcpt domain : string) (content : bytes) (host : string) : M unit :=
  logging_info "Attempting delivery of %s to %s (MX %s)"
    [ArgStr rcpt; ArgStr domain; ArgStr host] ;;
  with_SMTP host 25 30 (
    smtp_call (Ehlo (Some "local-relay")) ;;
    smtp_call (Sendmail (envelope_from content) [rcpt] content)) ;;
  logging_info "Delivered message to %s via %s" [ArgStr rcpt; ArgStr host].

(** Lines 113-129 of [_deliver_to_recipient]: the loop over the MX hosts and
    the final [raise]. *)
Fixpoint mx_loop (rcpt domain : string) (content : bytes)
    (mx_hosts : list string) (last_exc : option exn) : M unit :=
  match mx_hosts with
  | [] => raise (default (RuntimeError "MX delivery failed") last_exc)
  | host :: rest =>
      r ← try (mx_attempt rcpt domain content host) ;
      match r with
      | inl _ => mret tt
      | inr exc =>
          logging_warning "Delivery to %s via %s failed: %s"
            [ArgStr rcpt; ArgStr host; ArgExc exc] ;;
          mx_loop rcpt domain content rest (Some exc)
      end
  end.

(** Lines 107-129 of [_deliver_to_recipient]: direct delivery to the MX
    hosts of the recipient's domain. *)
Definition mx_delivery (rcpt : string) (content : bytes) : M unit :=
  domain ← match split1 "@" rcpt !! 1%nat with
           | Some d => mret d
           | None => raise (IndexError "list index out of range")
           end ;
  mx_hosts ← _get_mx_hosts domain ;
  match mx_hosts with
  | [] => raise (RuntimeError ("No MX hosts found for " +:+ domain))
  | _ => mx_loop rcpt domain content mx_hosts None
  end.

(** Lines 79-81 of [_deliver_to_recipient]: the relay port setting; [None]
    stands for the [ValueError] of [int]. *)
Definition read_relay_port : option Z :=
  if truthy (getenv P "SMTP_RELAY_PORT")
  then int (str_of (getenv P "SMTP_RELAY_PORT"))
  else Some 0.

(** Line 84 of [_deliver_to_recipient]: the STARTTLS flag. *)
Definition read_relay_starttls : bool :=
  bool_decide (default "1" (getenv P "SMTP_RELAY_STARTTLS") ∈ ["1"; "true"; "True"]).

(** [StoreHandler._deliver_to_recipient(rcpt, content)], lines 69-129. *)
Definition _deliver_to_recipient (rcpt : string) (content : bytes) : M unit :=
  let relay_host := getenv P "SMTP_RELAY_SERVER" in
  relay_port ←
    match read_relay_port with
    | Some n => mret n
    | None => raise (ValueError "invalid literal for int() with base 10")
    end ;
  let relay_user := getenv P "SMTP_RELAY_USERNAME" in
  let relay_pass := getenv P "SMTP_RELAY_PASSWORD" in
  let relay_starttls := read_relay_starttls in
  delivered ←
    (if truthy relay_host
     then relay_delivery (str_of relay_host) relay_port relay_user relay_pass
            relay_starttls rcpt content
     else mret false) ;
  if delivered : bool then mret tt else mx_delivery rcpt content.

(** Lines 39-44 of [handle_DATA]: the search for the first unused message
    file.  The loop runs at most once per existing file and once more. *)
Definition find_unused : M nat := λ st,
  match probe (S (size (files st))) (files st) 1 with
  | Some i => (Ret i, st)
  | None => (Hang, st)
  end.

(** Lines 55-58 of [handle_DATA]: one iteration of the loop over the
    recipients. *)
Definition deliver_logged (content : bytes) (rcpt : string) : M unit :=
  r ← try (_deliver_to_recipient rcpt content) ;
  match r with
  | inl _ => mret tt
  | inr exc =>
      logging_exception "Delivery attempt failed for %s" [ArgStr rcpt] exc
  end.

(** [StoreHandler.handle_DATA(server, session, envelope)], lines 30-60; the
    handler uses neither [server] nor [session]. *)
Definition handle_DATA (envelope : Envelope) : M string :=
  makedirs MAIL_DIR ;;
  i ← find_unused ;
  let path := msg_path i in
  w ← try (write_file path (content envelope)) ;
  match w with
  | inr exc =>
      logging_exception "Failed to store message" [] exc ;;
      mret "451 Could not store message"
  | inl _ =>
      for_each (rcpt_tos envelope) (deliver_logged (content envelope)) ;;
      mret "250 Message accepted for delivery"
  end.

(** The listener hands the envelopes of successive sessions to the handler
    one after the other; an exception that leaves the handler ends that
    session only. *)
Fixpoint serve (envelopes : list Envelope) (st : state) : list (result string) * state :=
  match envelopes with
  | [] => ([], st)
  | e :: rest =>
      let '(r, st') := handle_DATA e st in
      let '(rs, st'') := serve rest st' in
      (r :: rs, st'')
  end.

End Program.

(** ** Reading a trace *)

(** The events of a delivery attempt: SMTP exchanges and DNS queries. *)
Definition delivery_event (e : event) : bool :=
  match e with
  | EvSmtp _ _ | EvDns _ _ => true
  | _ => false
  end.

(** The events that touch the store. *)
Definition storage_event (e : event) : bool :=
  match e with
  | EvMakedirs _ _ | EvWrite _ _ _ => true
  | _ => false
  end.

(** The paths of the completed writes, oldest first. *)
Definition written (t : list event) : list string :=
  omap (λ e, match e with EvWrite p _ None => Some p | _ => None end) t.

(** The SMTP calls made, oldest first. *)
Definition smtp_ops (t : list event) : list smtp_op :=
  omap (λ e, match e with EvSmtp op _ => Some op | _ => None end) t.

(** The peers connected to, oldest first. *)
Definition connects (t : list event) : list (string * Z) :=
  omap (λ e, match e with
             | EvSmtp (Connect h p _) _ => Some (h, p)
             | _ => None
             end) t.

(** The DNS queries made, oldest first. *)
Definition queries (t : list event) : list string :=
  omap (λ e, match e with EvDns d _ => Some d | _ => None end) t.

(** The warnings logged, oldest first. *)
Definition is_warning (e : event) : bool :=
  match e with
  | EvLog WARNING _ _ _ => true
  | _ => false
  end.

Definition warnings (t : list event) : list event :=
  filter (λ e, Is_true (is_warning e)) t.

(** The events a run added: those of [st'] beyond the ones of [st]. *)
Definition added (st st' : state) : list event :=
  drop (length (trace st)) (trace st').

(** ** Sample surroundings, for concrete runs *)

(** [os.getenv] over a given [os.environ]. *)
Definition os_getenv (environ : gmap string string) (k : string) : option string :=
  environ !! k.

(** No relay configured; messages carry no [From] header. *)
Definition plain_platform : Platform :=
  {| getenv := os_getenv ∅; email_From := λ _, HeaderAbsent |}.

(** A relay with credentials. *)
Definition relay_platform : Platform :=
  {| getenv := os_getenv (list_to_map
       [("SMTP_RELAY_SERVER", "smtp.gmail.com"); ("SMTP_RELAY_PORT", "587");
        ("SMTP_RELAY_USERNAME", "relay@x.com"); ("SMTP_RELAY_PASSWORD", "secret")]);
     email_From := λ _, HeaderAbsent |}.

(** A relay host whose port setting is not a number. *)
Definition bad_port_platform : Platform :=
  {| getenv := os_getenv (list_to_map
       [("SMTP_RELAY_SERVER", "smtp.gmail.com"); ("SMTP_RELAY_PORT", "abc")]);
     email_From := λ _, HeaderAbsent |}.

(** A disk that takes every write, and one that is full. *)
Definition good_disk : Disk :=
  {| os_makedirs := λ _ _, None; open_write := λ _ _ _, WriteOk |}.

Definition full_disk : Disk :=
  {| os_makedirs := λ _ _, None;
     open_write := λ _ _ _, WriteErr (OSError "No space left on device") None |}.

(** A network where nothing answers, and one where every peer accepts and
    every domain has the two MX records of the running example. *)
Definition dead_net : Net :=
  {| smtp := λ _ _, Some (SMTPException "Connection refused");
     dns_resolve_MX := λ _ _, inl (DNSException "NXDOMAIN") |}.

Definition good_net : Net :=
  {| smtp := λ _ _, None;
     dns_resolve_MX := λ _ _, inr [MX 10 "mx1.example."; MX 5 "mx2.example."] |}.

(** A network where only [hasmx.test] resolves, and its host accepts. *)
Definition partial_net : Net :=
  {| smtp := λ _ _, None;
     dns_resolve_MX := λ _ d,
       if decide (d = "hasmx.test") then inr [MX 10 "mail.hasmx.test."]
       else inl (DNSException "NXDOMAIN") |}.

(** A network whose resolver answers with no record at all. *)
Definition no_mx_net : Net :=
  {| smtp := λ _ _, None; dns_resolve_MX := λ _ _, inr [] |}.

(** A network whose relay refuses the connection while MX hosts accept. *)
Definition relay_down_net : Net :=
  {| smtp := λ _ op,
       match op with
       | Connect _ 587 _ => Some (SMTPException "Connection refused")
       | _ => None
       end;
     dns_resolve_MX := λ _ _, inr [MX 10 "mx1.example."; MX 5 "mx2.example."] |}.

(** Two messages and what the header parser finds in them. *)
Definition CRLF : string := String "013" (String "010" "").

Definition bare_from_message : bytes :=
  b ("From: alice" +:+ CRLF +:+ CRLF +:+ "hi").

Definition alice_message : bytes :=
  b ("From: Alice <alice@example.com>" +:+ CRLF +:+ CRLF +:+ "hi").

Definition header_table (c : bytes) : header_lookup :=
  if decide (c = bare_from_message) then HeaderStr "alice"
  else if decide (c = alice_message) then HeaderStr "Alice <alice@example.com>"
  else HeaderAbsent.

(** No relay configured; the two messages above parse as shown. *)
Definition parsing_platform : Platform :=
  {| getenv := os_getenv ∅; email_From := header_table |}.

(** A resolver that returns two records of equal preference. *)
Definition tie_net : Net :=
  {| smtp := λ _ _, None;
     dns_resolve_MX := λ _ _, inr [MX 10 "b.example."; MX 10 "a.example."] |}.

(** A relay without credentials whose STARTTLS upgrade is refused, while
    MX hosts accept. *)
Definition open_relay_platform : Platform :=
  {| getenv := os_getenv (list_to_map [("SMTP_RELAY_SERVER", "relay.example")]);
     email_From := λ _, HeaderAbsent |}.

Definition no_tls_net : Net :=
  {| smtp := λ _ op,
       match op with
       | StartTLS => Some (SMTPException "STARTTLS extension not supported")
       | _ => None
       end;
     dns_resolve_MX := λ _ _, inr [MX 10 "mx1.example."; MX 5 "mx2.example."] |}.

(** A network whose peers accept every call and have dropped the
    connection when the closing [QUIT] is sent. *)
Definition hangup_net : Net :=
  {| smtp := λ _ op,
       match op with
       | Quit => Some (SMTPServerDisconnected "Connection unexpectedly closed")
       | _ => None
       end;
     dns_resolve_MX := λ _ _, inr [MX 10 "mx1.example."; MX 5 "mx2.example."] |}.

Definition empty_state : state := State ∅ [].

Definition sample_envelope : Envelope :=
  {| mail_from := "carol@example.org";
     rcpt_tos := ["a@nomx.test"; "b@hasmx.test"];
     content := b "Subject: hello" |}.

(** The SMTP calls of a relay attempt in which nothing fails, up to the
    transmission: connect, announce, upgrade if the flag is set,
    authenticate if both credentials are there, transmit. *)
Definition relay_plan (P : Platform) (host : string) (port : Z)
    (rcpt : string) (content : bytes) : list smtp_op :=
  [Connect host (if decide (port = 0) then 587 else port) 60;
   Ehlo (Some "local-relay")]
  ++ (if read_relay_starttls P then [StartTLS; Ehlo None] else [])
  ++ (if truthy (getenv P "SMTP_RELAY_USERNAME") &&
         truthy (getenv P "SMTP_RELAY_PASSWORD")
      then [Login (str_of (getenv P "SMTP_RELAY_USERNAME"))
                  (str_of (getenv P "SMTP_RELAY_PASSWORD"))]
      else [])
  ++ [Sendmail (envelope_from P content) [rcpt] content].

(** The SMTP calls of a trace other than the closing [QUIT]. *)
Definition is_quit (op : smtp_op) : bool :=
  match op with
  | Quit => true
  | _ => false
  end.

Definition before_quit (t : list event) : list smtp_op :=
  filter (λ op, Is_true (negb (is_quit op))) (smtp_ops t).

(** Whether some SMTP call of a trace failed: it raised, and the exception
    was not a [SMTPServerDisconnected] of the closing [QUIT], which
    [__exit__] drops. *)
Definition smtp_failed (t : list event) : bool :=
  existsb (λ e, match e with
                | EvSmtp Quit (Some exc) => negb (disconnected exc)
                | EvSmtp _ (Some _) => true
                | _ => false
                end) t.

(** The relay attempt of [_deliver_to_recipient] for [rcpt], as the
    settings of [P] shape it, from [st]. *)
Definition relay_attempt (P : Platform) (N : Net) (port : Z)
    (rcpt : string) (content : bytes) : M bool :=
  relay_delivery P N (str_of (getenv P "SMTP_RELAY_SERVER")) port
    (getenv P "SMTP_RELAY_USERNAME") (getenv P "SMTP_RELAY_PASSWORD")
    (read_relay_starttls P) rcpt content.

(** The run of [_deliver_to_recipient] from [st] reaches the MX step (line
    107) in state [s1]: the port setting is readable and either no relay host
    is set, or the relay attempt has failed. *)
Definition reaches_mx_fallback (P : Platform) (N : Net)
    (rcpt : string) (content : bytes) (st s1 : state) : Prop :=
  ∃ port, read_relay_port P = Some port ∧
    if truthy (getenv P "SMTP_RELAY_SERVER")
    then relay_attempt P N port rcpt content st = (Ret false, s1)
    else s1 = st.

(** The state right after the write of [handle_DATA] has completed, for the
    identifier [i]. *)
Definition stored (env : Envelope) (st : state) (i : nat) : state :=
  State (<[msg_path i := content env]> (files st))
        (trace st ++ [EvMakedirs MAIL_DIR None;
                      EvWrite (msg_path i) (content env) None]).

(** The record that [handle_DATA] logs when the delivery for [rcpt] ended
    with [res]. *)
Definition failure_record (rcpt : string) (res : result unit) : list event :=
  match res with
  | Exc e => [EvLog ERROR "Delivery attempt failed for %s" [ArgStr rcpt] (Some e)]
  | _ => []
  end.

(** An envelope whose first recipient has no domain part. *)
Definition odd_envelope : Envelope :=
  {| mail_from := "carol@example.org";
     rcpt_tos := ["postmaster"; "b@hasmx.test"];
     content := b "Subject: hello" |}.

(** A computation is quiet when it leaves the files alone, adds only
    events that do not touch the store, and returns or raises. *)
Definition quiet {A} (m : M A) : Prop :=
  ∀ st, ∃ d,
    (m st).2 = State (files st) (trace st ++ d) ∧
    Forall (λ e, storage_event e = false) d ∧
    (m st).1 ≠ Hang.

(** A computation is contained when it is quiet and always returns. *)
Definition contained (m : M unit) : Prop :=
  ∀ st, ∃ d,
    m st = (Ret tt, State (files st) (trace st ++ d)) ∧
    Forall (λ e, storage_event e = false) d.

(** ** Further readings of a trace *)

(** How many events of a trace satisfy a test. *)
Definition count (f : event → bool) (t : list event) : nat :=
  length (filter (λ e, Is_true (f e)) t).

(** A connection that was opened, and the [QUIT] that ends one. *)
Definition is_open (e : event) : bool :=
  match e with
  | EvSmtp (Connect _ _ _) None => true
  | _ => false
  end.

Definition is_close (e : event) : bool :=
  match e with
  | EvSmtp Quit _ => true
  | _ => false
  end.

(** A transmission, if the event is one, carries the message [msg]
    unchanged, to exactly one of the recipients [rcpts], from the address
    that [envelope_from] computes. *)
Definition forwards (P : Platform) (msg : bytes) (rcpts : list string)
    (e : event) : Prop :=
  match e with
  | EvSmtp (Sendmail from_addr to_addrs data) _ =>
      from_addr = envelope_from P msg ∧ data = msg ∧
      ∃ r, to_addrs = [r] ∧ r ∈ rcpts
  | _ => True
  end.

(** Whether every [login] of a trace comes after a STARTTLS upgrade that
    succeeded on the same connection; [upgraded] tells whether the
    connection in use at the start is. *)
Fixpoint credentials_guarded (upgraded : bool) (t : list event) : bool :=
  match t with
  | [] => true
  | EvSmtp (Connect _ _ _) _ :: t' => credentials_guarded false t'
  | EvSmtp StartTLS None :: t' => credentials_guarded true t'
  | EvSmtp (Login _ _) _ :: t' => upgraded && credentials_guarded upgraded t'
  | _ :: t' => credentials_guarded upgraded t'
  end.

(** The last character of a string. *)
Fixpoint last_char (s : string) : option ascii :=
  match s with
  | "" => None
  | String a "" => Some a
  | String _ s' => last_char s'
  end.

(** A store that already holds a message, for concrete runs. *)
Definition used_state : state :=
  State {[msg_path 1 := b "Subject: earlier"]} [].

(** Whether every character of a string passes a test. *)
Fixpoint all_chars (f : ascii → bool) (s : string) : bool :=
  match s with
  | "" => true
  | String a s' => f a && all_chars f s'
  end.

(** The first character of a string. *)
Definition first_char (s : string) : option ascii :=
  match s with
  | "" => None
  | String a _ => Some a
  end.

(** A network whose resolver answers while no host accepts a connection. *)
Definition dead_smtp_net : Net :=
  {| smtp := λ _ _, Some (SMTPException "Connection refused");
     dns_resolve_MX := λ _ _, inr [MX 10 "mx1.example."; MX 5 "mx2.example."] |}.

(** ** The listing endpoint *)

(** The line feed, as a string. *)
Definition LF : string := String "010" "".

(** [sep.join(l)] *)
Fixpoint join (sep : string) (l : list string) : string :=
  match l with
  | [] => ""
  | [x] => x
  | x :: l' => x +:+ sep +:+ join sep l'
  end.

(** The line boundaries of [str.splitlines] in the ASCII range: LF, VT, FF,
    CR, FS, GS and RS; a CR followed by an LF counts once. *)
Definition is_linebreak (a : ascii) : bool :=
  match a with
  | "010" | "011" | "012" | "013" | "028" | "029" | "030" => true
  | _ => false
  end%char.

(** [s.splitlines()]; [cur] holds the line being read, reversed. *)
Fixpoint splitlines_go (cur : string) (s : string) : list string :=
  match s with
  | "" => match cur with
          | "" => []
          | _ => [String.rev cur]
          end
  | String a s' =>
      if is_linebreak a then
        String.rev cur ::
          match s' with
          | String c s'' =>
              if bool_decide (a = "013"%char) && bool_decide (c = "010"%char)
              then splitlines_go "" s''
              else splitlines_go "" s'
          | "" => splitlines_go "" s'
          end
      else splitlines_go (String a cur) s'
  end.

Definition splitlines (s : string) : list string := splitlines_go "" s.

(** [sorted(l)] on a list of [str]: ascending by code points. *)
Definition sorted_names (l : list string) : list string :=
  merge_sort String.le l.

(** The mail directory as the listing sees it: whether a path is a
    directory, the names [os.listdir] returns, in the order of the system,
    and what [open(p, "r", encoding="utf8").read()] gives for a path. *)
Record Folder := {
  os_path_isdir : string → bool;
  os_listdir : string → exn + list string;
  read_text : string → exn + string
}.

(** The name of the file of message [i] inside the mail directory. *)
Definition msg_name (i : nat) : string := "msg-" +:+ pretty i +:+ ".eml".

(** Line 169 of [list_messages]: the block shown for one file. *)
Definition block (fname text : string) : string :=
  ("--- " +:+ fname +:+ " ---" +:+ LF) +:+ join LF (take 20 (splitlines text)).

(** Lines 165-169 of [list_messages]: the loop over the sorted names. *)
Fixpoint read_blocks (F : Folder) (names : list string) : exn + list string :=
  match names with
  | [] => inr []
  | fname :: rest =>
      let p := os_path_join MAIL_DIR fname in
      match read_text F p with
      | inl e => inl e
      | inr text =>
          match read_blocks F rest with
          | inl e => inl e
          | inr out => inr (block fname text :: out)
          end
      end
  end.

(** Lines 163-169 of [list_messages]: the list [out]. *)
Definition message_blocks (F : Folder) : exn + list string :=
  match os_listdir F MAIL_DIR with
  | inl e => inl e
  | inr names => read_blocks F (sorted_names names)
  end.

(** [list_messages()], lines 159-170; [inl] is an exception that leaves the
    function. *)
Definition list_messages (F : Folder) : exn + string :=
  if negb (os_path_isdir F MAIL_DIR) then inr "No messages"
  else
    match message_blocks F with
    | inl e => inl e
    | inr out =>
        inr (match join (LF +:+ LF) out with
             | "" => "No messages"
             | text => text
             end)
    end.

(** A mail directory with the given files, listed in the given order. *)
Definition folder_of (entries : list (string * string)) : Folder :=
  {| os_path_isdir := λ _, true;
     os_listdir := λ _, inr (fst <$> entries);
     read_text := λ p,
       match list_find (λ e, os_path_join MAIL_DIR e.1 = p) entries with
       | Some (_, (_, text)) => inr text
       | None => inl (OSError "No such file or directory")
       end |}.

(** A mail directory in which one file is not valid UTF-8. *)
Definition broken_folder : Folder :=
  {| os_path_isdir := λ _, true;
     os_listdir := λ _, inr ["msg-1.eml"; "msg-2.eml"];
     read_text := λ p,
       if decide (p = os_path_join MAIL_DIR "msg-2.eml")
       then inl (ValueError "'utf-8' codec can't decode byte")
       else inr "Subject: fine" |}.

(** ** The sending side: [streamlit_app/email_utils.py] and the form handler
    of [streamlit_app/app.py] *)

Module Sender.

(** The exceptions on this side: [KeyError], which [get_smtp_config]
    raises, and those met before. *)
Inductive error :=
| KeyError (msg : string)
| Raised (e : exn).

(** [str(exc)] for the exceptions met before: the text they carry. *)
Definition str_exn (exc : exn) : string :=
  match exc with
  | OSError msg | ValueError msg | IndexError msg | RuntimeError msg
  | SMTPException msg | SMTPServerDisconnected msg | DNSException msg => msg
  end.

(** [str(exc)]: a [KeyError] shows the [repr] of its argument, which for
    the messages built here (no quote, no escape) is the text in single
    quotes. *)
Definition str_error (exc : error) : string :=
  match exc with
  | KeyError msg => "'" +:+ msg +:+ "'"
  | Raised e => str_exn e
  end.

(** What [get_smtp_config] returns: [(server, port, username, password,
    sender, no_auth)]. *)
Record smtp_config := {
  server : option string;
  port : Z;
  username : option string;
  password : option string;
  sender : string;
  no_auth : bool
}.

(** [get_smtp_config()], lines 41-95 of [email_utils.py].  [dotenv] is the
    outcome of the call [load_dotenv()] of line 75, which reads a file and
    can raise (an [OSError] when the file cannot be read, a [ValueError]
    when it cannot be decoded): the exception, or [None] when the call
    returns.  Nothing catches that exception here.  [getenv] is the
    environment as [load_dotenv()] leaves it when it returns. *)
Definition get_smtp_config (dotenv : option exn)
    (getenv : string → option string) : error + smtp_config :=
  match dotenv with
  | Some e => inl (Raised e)
  | None =>
  let required_keys := ["SMTP_SERVER"; "SMTP_PORT"; "SENDER_EMAIL"] in
  let missing := filter (λ k, truthy (getenv k) = false) required_keys in
  match missing with
  | _ :: _ =>
      inl (KeyError ("Missing required environment variables: " +:+
                     join ", " missing))
  | [] =>
      let no_auth := bool_decide (getenv "SMTP_NO_AUTH" ∈
                                    [Some "1"; Some "true"; Some "True"]) in
      let port_str := getenv "SMTP_PORT" in
      if negb (truthy port_str)
      then inl (Raised (ValueError "SMTP_PORT must be provided"))
      else
        match int (str_of port_str) with
        | None => inl (Raised (ValueError "SMTP_PORT must be an integer"))
        | Some port =>
            let server := getenv "SMTP_SERVER" in
            let username := getenv "SMTP_USERNAME" in
            let password := getenv "SMTP_PASSWORD" in
            let sender :=
              if truthy (getenv "SENDER_EMAIL") then str_of (getenv "SENDER_EMAIL")
              else if truthy username then str_of username
              else "" in
            inr {| server := server; port := port; username := username;
                   password := password; sender := sender; no_auth := no_auth |}
        end
  end
  end.

(** The calls [send_email] makes on [smtplib]: the two constructors, the
    methods, and the [QUIT] of leaving the [with] block. *)
Inductive op :=
| Connect (host : option string) (port : Z) (timeout : Z)
| ConnectSSL (host : option string) (port : Z) (timeout : Z)
| Ehlo
| StartTLS
| Login (user password : option string)
| Sendmail (from_addr : option string) (to_addrs : list string) (msg : string)
| Quit.

(** A call that was made, with the exception it raised, if any. *)
Record call := Call { call_op : op; call_raised : option exn }.

(** The message object that [send_email] builds: a [MIMEText] with the body
    and the three headers set. *)
Record MIMEText := {
  mime_body : string;
  mime_Subject : string;
  mime_From : option string;
  mime_To : string
}.

(** What the sending side calls outside itself: the mail server, as the
    calls so far decide it; [message.as_string()] of the standard library;
    and [load_dotenv()], with the exception it raises, if any. *)
Record Mailer := {
  smtplib_call : list call → op → option exn;
  as_string : MIMEText → exn + string;
  load_dotenv : option exn
}.

(** Computations that make calls and may raise. *)
Definition C (A : Type) : Type := list call → result A * list call.

Global Instance C_ret : MRet C := λ A a t, (Ret a, t).

Global Instance C_bind : MBind C := λ A B f m t,
  match m t with
  | (Ret a, t') => f a t'
  | (Exc e, t') => (Exc e, t')
  | (Hang, t') => (Hang, t')
  end.

Definition throw {A} (e : exn) : C A := λ t, (Exc e, t).

Definition attempt {A} (m : C A) : C (A + exn) := λ t,
  match m t with
  | (Ret a, t') => (Ret (inl a), t')
  | (Exc e, t') => (Ret (inr e), t')
  | (Hang, t') => (Hang, t')
  end.

Section Program.
Context (L : Mailer).

Definition perform (o : op) : C unit := λ t,
  let r := smtplib_call L t o in
  (match r with None => Ret tt | Some e => Exc e end, t ++ [Call o r]).

Definition render (m : MIMEText) : C string := λ t,
  (match as_string L m with inr s => Ret s | inl e => Exc e end, t).

(** [smtplib.SMTP.__exit__], which [SMTP_SSL] inherits: the [QUIT]
    exchange of leaving a [with] block, where [SMTPServerDisconnected] is
    caught and dropped and any other exception leaves the block. *)
Definition server_exit : C unit :=
  q ← attempt (perform Quit) ;
  match q with
  | inl _ => mret tt
  | inr e => if disconnected e then mret tt else throw e
  end.

(** [with <constructor call> as server: body]: an exception that leaves
    [__exit__] replaces the outcome of the body, and otherwise the outcome
    of the body stands. *)
Definition with_server {A} (connect : op) (body : C A) : C A :=
  perform connect ;;
  r ← attempt body ;
  server_exit ;;
  match r with
  | inl a => mret a
  | inr e => throw e
  end.

(** [send_email(...)], lines 98-170 of [email_utils.py]. *)
Definition send_email (recipient subject body : string)
    (smtp_server : option string) (smtp_port : Z)
    (username password : option string) (sender : option string)
    (no_auth : bool) : C unit :=
  let sender := match sender with None => username | Some _ => sender end in
  let message := {| mime_body := body; mime_Subject := subject;
                    mime_From := sender; mime_To := recipient |} in
  let timeout := 30 in
  if no_auth || bool_decide (smtp_port = 25) then
    with_server (Connect smtp_server smtp_port timeout) (
      text ← render message ;
      perform (Sendmail sender [recipient] text))
  else if bool_decide (smtp_port = 465) then
    with_server (ConnectSSL smtp_server smtp_port timeout) (
      perform (Login username password) ;;
      text ← render message ;
      perform (Sendmail sender [recipient] text))
  else
    with_server (Connect smtp_server smtp_port timeout) (
      perform Ehlo ;;
      perform StartTLS ;;
      perform Ehlo ;;
      perform (Login username password) ;;
      text ← render message ;
      perform (Sendmail sender [recipient] text)).

(** What the form shows after a submission. *)
Inductive feedback :=
| st_error (text : string)
| st_success (text : string).

(** Lines 53-79 of [main] in [streamlit_app/app.py]: what a submission of
    the form does, for the three fields as entered. *)
Definition submit (getenv : string → option string)
    (recipient subject body : string) : C feedback :=
  if negb (truthy (Some recipient)) || negb (truthy (Some subject))
     || negb (truthy (Some body))
  then mret (st_error "All fields are required to send an email.")
  else
    match get_smtp_config (load_dotenv L) getenv with
    | inl (KeyError msg) =>
        mret (st_error ("Configuration error: " +:+ str_error (KeyError msg)))
    | inl (Raised (ValueError msg)) =>
        mret (st_error ("Configuration error: " +:+ msg))
    | inl (Raised e) => throw e
    | inr cfg =>
        r ← attempt (send_email (strip isspace recipient) (strip isspace subject)
                       body (server cfg) (port cfg) (username cfg)
                       (password cfg) (Some (sender cfg)) (no_auth cfg)) ;
        match r with
        | inr exc => mret (st_error ("Failed to send email: " +:+ str_exn exc))
        | inl _ =>
            mret (st_success ("Email successfully sent to " +:+ recipient +:+ "!"))
        end
    end.

End Program.
End Sender.

(** ** Sample surroundings of the sending side *)

Definition sender_env : string → option string :=
  os_getenv (list_to_map
    [("SMTP_SERVER", "smtp_relay"); ("SMTP_PORT", "587");
     ("SMTP_USERNAME", "user@example.org"); ("SMTP_PASSWORD", "secret");
     ("SENDER_EMAIL", "me@example.org")]).

(** The sender address left out, with a user name set. *)
Definition no_sender_env : string → option string :=
  os_getenv (list_to_map
    [("SMTP_SERVER", "smtp_relay"); ("SMTP_PORT", "587");
     ("SMTP_USERNAME", "user@example.org")]).

(** A mail server that accepts every call, and a rendering of the message
    that stands for [message.as_string()]. *)
Definition good_mailer : Sender.Mailer :=
  {| Sender.smtplib_call := λ _ _, None;
     Sender.as_string := λ m,
       inr ("Subject: " +:+ Sender.mime_Subject m +:+ LF +:+ LF +:+
            Sender.mime_body m);
     Sender.load_dotenv := None |}.

(** A mail server that accepts the message and has dropped the connection
    when the closing [QUIT] is sent. *)
Definition hangup_mailer : Sender.Mailer :=
  {| Sender.smtplib_call := λ _ o,
       match o with
       | Sender.Quit => Some (SMTPServerDisconnected "Connection unexpectedly closed")
       | _ => None
       end;
     Sender.as_string := Sender.as_string good_mailer;
     Sender.load_dotenv := None |}.

(** A [.env] file that cannot be read. *)
Definition unreadable_dotenv_mailer : Sender.Mailer :=
  {| Sender.smtplib_call := λ _ _, None;
     Sender.as_string := Sender.as_string good_mailer;
     Sender.load_dotenv := Some (OSError "Permission denied: '.env'") |}.

(** ** Reading the calls of the sending side *)

(** The outcomes of the closing [QUIT] that leave the outcome of the [with]
    block to its body: the exchange went through, or the server had dropped
    the connection. *)
Definition exit_passed (q : option exn) : bool :=
  match q with
  | None => true
  | Some e => disconnected e
  end.

(** Whether every [login] of a list of calls comes after the connection in
    use was set up with TLS ([SMTP_SSL]) or upgraded by a [starttls] that
    succeeded. *)
Fixpoint login_secured (secured : bool) (t : list Sender.call) : bool :=
  match t with
  | [] => true
  | Sender.Call (Sender.Connect _ _ _) _ :: t' => login_secured false t'
  | Sender.Call (Sender.ConnectSSL _ _ _) None :: t' => login_secured true t'
  | Sender.Call (Sender.ConnectSSL _ _ _) (Some _) :: t' => login_secured false t'
  | Sender.Call Sender.StartTLS None :: t' => login_secured true t'
  | Sender.Call (Sender.Login _ _) _ :: t' => secured && login_secured secured t'
  | _ :: t' => login_secured secured t'
  end.

Definition is_sendmail (c : Sender.call) : bool :=
  match Sender.call_op c with
  | Sender.Sendmail _ _ _ => true
  | _ => false
  end.

(** A call of the plain mode: connect without TLS, transmit, quit. *)
Definition is_plain (c : Sender.call) : bool :=
  match Sender.call_op c with
  | Sender.Connect _ _ _ | Sender.Sendmail _ _ _ | Sender.Quit => true
  | _ => false
  end.

(** A transmission, if the call is one, goes from [from_addr] to [rcpt]
    alone and carries the rendering of [message]. *)
Definition addressed (L : Sender.Mailer) (from_addr : option string)
    (rcpt : string) (message : Sender.MIMEText) (c : Sender.call) : Prop :=
  match Sender.call_op c with
  | Sender.Sendmail f to_addrs text =>
      f = from_addr ∧ to_addrs = [rcpt] ∧ Sender.as_string L message = inr text
  | _ => True
  end.

(** * Properties *)

(** Membership of a given event in a given list, and its refutation. *)
Ltac present :=
  repeat first [apply list_elem_of_here | apply list_elem_of_further].

Ltac absent H :=
  repeat (apply elem_of_cons in H as [H|H]; [discriminate H|]);
  by apply elem_of_nil in H.


(** ** The primitives and the model on concrete inputs *)

Example split_example :
  split "Alice  <alice@example.com>" = ["Alice"; "<alice@example.com>"].
Proof. reflexivity. Qed.

Example strip_example :
  strip (in_chars ["<"; ">"; "010"; "013"]%char) "<alice@example.com>" =
    "alice@example.com" ∧
  rstrip (in_chars ["."]%char) "mx1.example." = "mx1.example".
Proof. split; reflexivity. Qed.

Example split1_example :
  split1 "@" "a@b@c" = ["a"; "b@c"] ∧ split1 "@" "postmaster" = ["postmaster"].
Proof. split; reflexivity. Qed.

Example int_example :
  int " 5_87 " = Some 587 ∧ int "-2" = Some (-2) ∧ int "abc" = None ∧
  int "" = None ∧ int "1__0" = None.
Proof. split_and!; reflexivity. Qed.

Example int_whitespace_example :
  int (String "009" "587" +:+ CRLF) = Some 587 ∧
  int (String "031" "587") = None ∧ int ("587" +:+ String "028" "") = None.
Proof. split_and!; reflexivity. Qed.

Example int_limit_example :
  int (" -" +:+ string_of_list_ascii (replicate 4300 "0"%char)) = Some 0 ∧
  int (string_of_list_ascii (replicate 4301 "0"%char)) = None.
Proof. split; vm_compute; reflexivity. Qed.

Example sorted_example :
  sorted [(10, "mx1.example"); (5, "mx2.example"); (10, "a.example")] =
    [(5, "mx2.example"); (10, "a.example"); (10, "mx1.example")].
Proof. vm_compute. reflexivity. Qed.

Example msg_path_example :
  msg_path 1 = "/app/mail_store/msg-1.eml" ∧
  msg_path 12 = "/app/mail_store/msg-12.eml".
Proof. split; vm_compute; reflexivity. Qed.

(** The scenario of two recipients, the first of which has no MX record:
    the message is stored, the first delivery fails at the resolver, the
    second goes through. *)
Example two_recipients_example :
  let run := handle_DATA plain_platform good_disk partial_net sample_envelope
               empty_state in
  run.1 = Ret "250 Message accepted for delivery" ∧
  written (trace run.2) = ["/app/mail_store/msg-1.eml"] ∧
  queries (trace run.2) = ["nomx.test"; "hasmx.test"] ∧
  connects (trace run.2) = [("mail.hasmx.test", 25)].
Proof. vm_compute. done. Qed.

(** ** File names and the search for an unused one *)

Lemma append_cons (a : ascii) (s t : string) :
  String a s +:+ t = String a (s +:+ t).
Proof. reflexivity. Qed.

Lemma append_length (s t : string) :
  String.length (s +:+ t) = (String.length s + String.length t)%nat.
Proof.
  induction s as [|a s IH]; [done|].
  rewrite append_cons. simpl. by rewrite IH.
Qed.

Lemma append_inj_r (s1 s2 t : string) : s1 +:+ t = s2 +:+ t → s1 = s2.
Proof.
  revert s2. induction s1 as [|a s1 IH]; intros [|c s2] Heq.
  - done.
  - apply (f_equal String.length) in Heq.
    rewrite !append_length in Heq. simpl in Heq. lia.
  - apply (f_equal String.length) in Heq.
    rewrite !append_length in Heq. simpl in Heq. lia.
  - rewrite !append_cons in Heq. injection Heq as -> Heq. f_equal. by apply IH.
Qed.

Global Instance msg_path_inj : Inj (=) (=) msg_path.
Proof.
  intros i j Heq. unfold msg_path, os_path_join in Heq.
  do 3 apply String.app_inj in Heq.
  apply append_inj_r in Heq. by apply (inj pretty) in Heq.
Qed.

Lemma probe_found fuel fs i k :
  probe fuel fs i = Some k →
  (i ≤ k)%nat ∧ fs !! msg_path k = None ∧
  ∀ j, (i ≤ j < k)%nat → is_Some (fs !! msg_path j).
Proof.
  revert i. induction fuel as [|fuel IH]; intros i Hp; simpl in Hp; [done|].
  destruct (decide (is_Some (fs !! msg_path i))) as [Hi|Hi].
  - apply IH in Hp as (Hle & Hfree & Hused). split_and!; [lia|done|].
    intros j Hj. destruct (decide (j = i)) as [->|]; [done|]. apply Hused. lia.
  - injection Hp as <-. split_and!; [lia| |intros; lia].
    by apply eq_None_not_Some.
Qed.

Lemma probe_exhausted fuel fs i :
  probe fuel fs i = None →
  ∀ j, (i ≤ j < i + fuel)%nat → is_Some (fs !! msg_path j).
Proof.
  revert i. induction fuel as [|fuel IH]; intros i Hp j Hj; [lia|].
  simpl in Hp. destruct (decide (is_Some (fs !! msg_path i))) as [Hi|Hi]; [|done].
  destruct (decide (j = i)) as [->|]; [done|]. apply (IH (S i)); [done|lia].
Qed.

(** The search always ends: with [n] files on disk, one of the first [n+1]
    names is unused. *)
Lemma probe_terminates (fs : gmap string bytes) i :
  is_Some (probe (S (size fs)) fs i).
Proof.
  destruct (probe (S (size fs)) fs i) as [k|] eqn:Hp; [by eexists|].
  exfalso. pose proof (probe_exhausted _ _ _ Hp) as Hall.
  set (names := msg_path <$> seq i (S (size fs))).
  assert (NoDup names) as Hnd.
  { apply (NoDup_fmap_2 _), NoDup_seq. }
  assert (list_to_set names ⊆ dom fs) as Hsub.
  { intros p [j [-> Hj%elem_of_seq]]%elem_of_list_to_set%list_elem_of_fmap.
    apply elem_of_dom, Hall. lia. }
  apply subseteq_size in Hsub.
  rewrite size_list_to_set, size_dom in Hsub; [|done].
  unfold names in Hsub. rewrite length_fmap, length_seq in Hsub. lia.
Qed.

(** ** Effects of the delivery code *)

Section Effects.
Context (P : Platform) (N : Net).

Lemma quiet_ret {A} (a : A) : quiet (mret a).
Proof. intros st. exists []. destruct st. by rewrite app_nil_r. Qed.

Lemma quiet_raise {A} (e : exn) : quiet (@raise A e).
Proof. intros st. exists []. destruct st. by rewrite app_nil_r. Qed.

Lemma quiet_emit (e : event) : storage_event e = false → quiet (emit e).
Proof. intros He st. exists [e]. simpl. by repeat constructor. Qed.

Lemma quiet_bind {A B} (m : M A) (f : A → M B) :
  quiet m → (∀ a, quiet (f a)) → quiet (m ≫= f).
Proof.
  intros Hm Hf st. destruct (Hm st) as (d & Hst & Hd & Hh).
  unfold mbind, M_bind. destruct (m st) as [[a|e|] st']; simpl in *; subst.
  - destruct (Hf a (State (files st) (trace st ++ d))) as (d' & Hst' & Hd' & Hh').
    exists (d ++ d'). simpl in *. rewrite Hst', app_assoc.
    split_and!; [done|by apply Forall_app|done].
  - by exists d.
  - done.
Qed.

Lemma quiet_try {A} (m : M A) : quiet m → quiet (try m).
Proof.
  intros Hm st. destruct (Hm st) as (d & Hst & Hd & Hh).
  unfold try. destruct (m st) as [[a|e|] st']; simpl in *; subst;
    [by exists d..|done].
Qed.

Lemma quiet_smtp_call op : quiet (smtp_call N op).
Proof.
  intros st. exists [EvSmtp op (smtp N (trace st) op)]. unfold smtp_call.
  destruct (smtp N (trace st) op); simpl; by repeat constructor.
Qed.

Lemma quiet_dns_call domain : quiet (dns_call N domain).
Proof.
  intros st. exists [EvDns domain (dns_resolve_MX N (trace st) domain)].
  unfold dns_call.
  destruct (dns_resolve_MX N (trace st) domain); simpl; by repeat constructor.
Qed.

Lemma quiet_with_SMTP {A} host port timeout (body : M A) :
  quiet body → quiet (with_SMTP N host port timeout body).
Proof.
  intros Hb. unfold with_SMTP.
  apply quiet_bind; [apply quiet_smtp_call|intros _].
  apply quiet_bind; [by apply quiet_try|intros r].
  apply quiet_bind.
  - unfold smtp_exit.
    apply quiet_bind; [apply quiet_try, quiet_smtp_call|intros [|e]].
    + apply quiet_ret.
    + destruct (disconnected e); auto using quiet_ret, quiet_raise.
  - intros _. destruct r; auto using quiet_ret, quiet_raise.
Qed.

Ltac quiet_step :=
  first
    [ apply quiet_with_SMTP
    | apply quiet_try
    | apply quiet_smtp_call
    | apply quiet_dns_call
    | apply quiet_ret
    | apply quiet_raise
    | apply quiet_emit; reflexivity
    | apply quiet_bind; [|intros ?] ].

Lemma quiet_relay_delivery host port user pass tls rcpt content :
  quiet (relay_delivery P N host port user pass tls rcpt content).
Proof.
  unfold relay_delivery, logging_info, logging_exception.
  apply quiet_bind.
  - repeat quiet_step; repeat case_match; repeat quiet_step.
  - intros [|]; repeat quiet_step.
Qed.

Lemma quiet_mx_loop rcpt domain content hosts last_exc :
  quiet (mx_loop P N rcpt domain content hosts last_exc).
Proof.
  revert last_exc. induction hosts as [|host rest IH]; intros last_exc; simpl.
  - apply quiet_raise.
  - unfold mx_attempt, logging_info, logging_warning. apply quiet_bind.
    + repeat quiet_step.
    + intros [|exc]; [apply quiet_ret|]. repeat quiet_step. apply IH.
Qed.

Lemma quiet_get_mx_hosts domain : quiet (_get_mx_hosts N domain).
Proof. unfold _get_mx_hosts. repeat quiet_step. Qed.

Lemma quiet_mx_delivery rcpt content : quiet (mx_delivery P N rcpt content).
Proof.
  unfold mx_delivery. apply quiet_bind; [case_match; quiet_step|intros domain].
  apply quiet_bind; [apply quiet_get_mx_hosts|intros [|h hosts]].
  - apply quiet_raise.
  - apply quiet_mx_loop.
Qed.

Lemma quiet_deliver_to_recipient rcpt content :
  quiet (_deliver_to_recipient P N rcpt content).
Proof.
  unfold _deliver_to_recipient.
  apply quiet_bind; [case_match; quiet_step|intros port].
  apply quiet_bind; [case_match; [apply quiet_relay_delivery|quiet_step]|].
  intros [|]; [quiet_step|apply quiet_mx_delivery].
Qed.

(** One recipient's turn never raises, whatever its delivery does. *)
Lemma contained_deliver_logged content rcpt :
  contained (deliver_logged P N content rcpt).
Proof.
  intros st. unfold deliver_logged, mbind, M_bind, try.
  destruct (quiet_deliver_to_recipient rcpt content st) as (d & Hst & Hd & Hh).
  destruct (_deliver_to_recipient P N rcpt content st) as [[[]|e|] st'];
    simpl in *; subst; [| |done].
  - by exists d.
  - exists (d ++ [EvLog ERROR "Delivery attempt failed for %s" [ArgStr rcpt] (Some e)]).
    unfold logging_exception, emit. simpl. rewrite app_assoc.
    split; [done|]. apply Forall_app. by repeat constructor.
Qed.

Lemma contained_for_each {A} (l : list A) (f : A → M unit) :
  (∀ x, contained (f x)) → contained (for_each l f).
Proof.
  intros Hf. induction l as [|x l IH]; intros st; simpl.
  - exists []. destruct st. by rewrite app_nil_r.
  - unfold mbind, M_bind. destruct (Hf x st) as (d & -> & Hd).
    destruct (IH (State (files st) (trace st ++ d))) as (d' & -> & Hd').
    exists (d ++ d'). simpl. rewrite app_assoc. split; [done|by apply Forall_app].
Qed.

End Effects.

(** ** One run of the handler *)

(** The run of [handle_DATA], step by step: the directory, the search, the
    write, and then either the refusal or the loop over the recipients. *)
Lemma handle_DATA_run P D N env st :
  let t1 := trace st ++ [EvMakedirs MAIL_DIR (os_makedirs D (trace st) MAIL_DIR)] in
  match os_makedirs D (trace st) MAIL_DIR with
  | Some e => handle_DATA P D N env st = (Exc e, State (files st) t1)
  | None =>
      ∃ i, probe (S (size (files st))) (files st) 1 = Some i ∧
        match open_write D t1 (msg_path i) (content env) with
        | WriteErr e left_behind =>
            handle_DATA P D N env st =
              (Ret "451 Could not store message",
               State (match left_behind with
                      | Some d => <[msg_path i := d]> (files st)
                      | None => files st
                      end)
                     (t1 ++ [EvWrite (msg_path i) (content env) (Some e);
                             EvLog ERROR "Failed to store message" [] (Some e)]))
        | WriteOk =>
            let stored := State (<[msg_path i := content env]> (files st))
                                (t1 ++ [EvWrite (msg_path i) (content env) None]) in
            ∃ d,
              for_each (rcpt_tos env) (deliver_logged P N (content env)) stored =
                (Ret tt, State (files stored) (trace stored ++ d)) ∧
              Forall (λ e, storage_event e = false) d ∧
              handle_DATA P D N env st =
                (Ret "250 Message accepted for delivery",
                 State (files stored) (trace stored ++ d))
        end
  end.
Proof.
  intros t1. unfold handle_DATA, mbind, M_bind, makedirs. subst t1.
  destruct (os_makedirs D (trace st) MAIL_DIR) as [e|] eqn:Hmk; [done|].
  unfold find_unused. cbn [files trace].
  destruct (probe_terminates (files st) 1) as [i Hi]. rewrite Hi.
  exists i. split; [done|]. unfold try, write_file. simpl.
  destruct (open_write D _ (msg_path i) (content env)) as [|e lb] eqn:Hw.
  - destruct (contained_for_each (rcpt_tos env) _
                (contained_deliver_logged P N (content env))
                (State (<[msg_path i := content env]> (files st))
                   ((trace st ++ [EvMakedirs MAIL_DIR None]) ++
                    [EvWrite (msg_path i) (content env) None])))
      as (d & Hrun & Hd).
    exists d. simpl in *. rewrite Hrun. done.
  - unfold logging_exception, emit. simpl. by rewrite <- app_assoc.
Qed.

(** C1: the reply to DATA follows from the outcome of the storage step alone.
    A completed write gives "250 Message accepted for delivery", a write that
    raised gives "451 Could not store message", and the reply is the same
    whatever the network and the relay settings are.  (When the directory
    can be made, the write is attempted; when it cannot, the handler raises
    that error.) *)
Theorem data_reply_follows_storage P D N env st :
  let r := (handle_DATA P D N env st).1 in
  let new := added st (handle_DATA P D N env st).2 in
  (∀ p c, EvWrite p c None ∈ new →
     r = Ret "250 Message accepted for delivery") ∧
  (∀ p c e, EvWrite p c (Some e) ∈ new →
     r = Ret "451 Could not store message") ∧
  (os_makedirs D (trace st) MAIL_DIR = None →
     ∃ p o, EvWrite p (content env) o ∈ new) ∧
  (∀ e, os_makedirs D (trace st) MAIL_DIR = Some e → r = Exc e) ∧
  (∀ P' N', (handle_DATA P' D N' env st).1 = r).
Proof.
  intros r new. subst r new. unfold added.
  pose proof (handle_DATA_run P D N env st) as Hrun. cbv zeta in Hrun.
  destruct (os_makedirs D (trace st) MAIL_DIR) as [e|] eqn:Hmk.
  - rewrite Hrun. simpl. rewrite drop_app_length.
    split_and!; [intros p c Hin; absent Hin|intros p c e' Hin; absent Hin
                |done|by intros e' [= ->]|].
    intros P' N'. pose proof (handle_DATA_run P' D N' env st) as Hrun'.
    cbv zeta in Hrun'. rewrite Hmk in Hrun'. by rewrite Hrun'.
  - destruct Hrun as (i & Hi & Hrun).
    destruct (open_write D _ (msg_path i) (content env)) as [|e lb] eqn:Hw.
    + destruct Hrun as (d & _ & Hd & ->). simpl.
      rewrite <- !app_assoc, drop_app_length. simpl.
      split_and!; [done| |eexists _, _; present|done|].
      * intros p c e Hin. exfalso.
        apply elem_of_cons in Hin as [[=]|Hin].
        apply elem_of_cons in Hin as [[=]|Hin].
        rewrite Forall_forall in Hd. by apply Hd in Hin.
      * intros P' N'. pose proof (handle_DATA_run P' D N' env st) as Hrun'.
        cbv zeta in Hrun'. rewrite Hmk in Hrun'.
        destruct Hrun' as (i' & Hi' & Hrun'). simplify_eq. rewrite Hw in Hrun'.
        by destruct Hrun' as (d' & _ & _ & ->).
    + rewrite Hrun. simpl. rewrite <- !app_assoc, drop_app_length. simpl.
      split_and!; [|done|eexists _, _; present|done|].
      * intros p c Hin. absent Hin.
      * intros P' N'. pose proof (handle_DATA_run P' D N' env st) as Hrun'.
        cbv zeta in Hrun'. rewrite Hmk in Hrun'.
        destruct Hrun' as (i' & Hi' & Hrun'). simplify_eq. rewrite Hw in Hrun'.
        by rewrite Hrun'.
Qed.

Lemma data_reply_follows_storage_witness :
  (handle_DATA plain_platform good_disk dead_net sample_envelope
     empty_state).1 = Ret "250 Message accepted for delivery" ∧
  (handle_DATA relay_platform full_disk good_net sample_envelope
     empty_state).1 = Ret "451 Could not store message".
Proof.
  split.
  - apply (proj1 (data_reply_follows_storage plain_platform good_disk dead_net
                    sample_envelope empty_state)
             (msg_path 1) (content sample_envelope)).
    vm_compute. present.
  - apply (proj1 (proj2 (data_reply_follows_storage relay_platform full_disk
                           good_net sample_envelope empty_state))
             (msg_path 1) (content sample_envelope)
             (OSError "No space left on device")).
    vm_compute. present.
Defined.

(** C2: within one run the write to the store is over before the first SMTP
    or DNS event, and a run whose storage step failed has no such event. *)
Theorem storage_precedes_delivery P D N env st :
  let new := added st (handle_DATA P D N env st).2 in
  (∀ k e, new !! k = Some e → delivery_event e = true →
     ∃ j p c, (j < k)%nat ∧ new !! j = Some (EvWrite p c None)) ∧
  ((∃ p c e, EvWrite p c (Some e) ∈ new) →
     Forall (λ e, delivery_event e = false) new) ∧
  ((∃ p e, EvMakedirs p (Some e) ∈ new) →
     Forall (λ e, delivery_event e = false) new).
Proof.
  intros new. subst new. unfold added.
  pose proof (handle_DATA_run P D N env st) as Hrun. cbv zeta in Hrun.
  destruct (os_makedirs D (trace st) MAIL_DIR) as [e|] eqn:Hmk.
  - rewrite Hrun. simpl. rewrite drop_app_length.
    split_and!; [|by repeat constructor..].
    intros [|k] e' Hk He'; simplify_eq/=.
  - destruct Hrun as (i & Hi & Hrun).
    destruct (open_write D _ (msg_path i) (content env)) as [|e lb] eqn:Hw.
    + destruct Hrun as (d & _ & Hd & ->). simpl.
      rewrite <- !app_assoc, drop_app_length. simpl.
      rewrite Forall_forall in Hd. split_and!.
      * intros [|[|k]] e' Hk He'; simplify_eq/=.
        exists 1%nat, (msg_path i), (content env). split; [lia|done].
      * intros (p & c & e & Hin). exfalso.
        apply elem_of_cons in Hin as [[=]|Hin].
        apply elem_of_cons in Hin as [[=]|Hin]. by apply Hd in Hin.
      * intros (p & e & Hin). exfalso.
        apply elem_of_cons in Hin as [[=]|Hin].
        apply elem_of_cons in Hin as [[=]|Hin]. by apply Hd in Hin.
    + rewrite Hrun. simpl. rewrite <- !app_assoc, drop_app_length. simpl.
      split_and!; [|by repeat constructor..].
      intros [|[|[|k]]] e' Hk He'; simplify_eq/=.
Qed.

Lemma storage_precedes_delivery_witness :
  (∃ j p c, (j < 2)%nat ∧
     added empty_state
       (handle_DATA plain_platform good_disk dead_net sample_envelope
          empty_state).2 !! j = Some (EvWrite p c None)) ∧
  Forall (λ e, delivery_event e = false)
    (added empty_state
       (handle_DATA relay_platform full_disk good_net sample_envelope
          empty_state).2).
Proof.
  split.
  - apply (proj1 (storage_precedes_delivery plain_platform good_disk dead_net
                    sample_envelope empty_state)
             2%nat (EvDns "nomx.test" (inl (DNSException "NXDOMAIN"))));
      vm_compute; reflexivity.
  - apply (proj1 (proj2 (storage_precedes_delivery relay_platform full_disk
                           good_net sample_envelope empty_state))).
    exists (msg_path 1), (content sample_envelope),
      (OSError "No space left on device").
    vm_compute. present.
Defined.

(** C3: when the handler accepts a message, the store holds a new file whose
    bytes are exactly the content received, and no other file has changed. *)
Theorem accepted_content_is_stored_verbatim P D N env st :
  (handle_DATA P D N env st).1 = Ret "250 Message accepted for delivery" →
  ∃ i, (1 ≤ i)%nat ∧
    files st !! msg_path i = None ∧
    files (handle_DATA P D N env st).2 !! msg_path i = Some (content env) ∧
    ∀ p, p ≠ msg_path i →
      files (handle_DATA P D N env st).2 !! p = files st !! p.
Proof.
  intros Hok.
  pose proof (handle_DATA_run P D N env st) as Hrun. cbv zeta in Hrun.
  destruct (os_makedirs D (trace st) MAIL_DIR) as [e|] eqn:Hmk.
  { by rewrite Hrun in Hok. }
  destruct Hrun as (i & Hi & Hrun). apply probe_found in Hi as (Hle & Hfree & _).
  destruct (open_write D _ (msg_path i) (content env)) as [|e lb] eqn:Hw.
  - destruct Hrun as (d & _ & _ & ->). simpl. exists i.
    split_and!; [done|done|by rewrite lookup_insert_eq|].
    intros p Hp. by rewrite lookup_insert_ne.
  - by rewrite Hrun in Hok.
Qed.

Lemma accepted_content_is_stored_verbatim_witness :
  ∃ i, (1 ≤ i)%nat ∧
    files empty_state !! msg_path i = None ∧
    files (handle_DATA plain_platform good_disk dead_net sample_envelope
             empty_state).2 !! msg_path i = Some (content sample_envelope) ∧
    ∀ p, p ≠ msg_path i →
      files (handle_DATA plain_platform good_disk dead_net sample_envelope
               empty_state).2 !! p = files empty_state !! p.
Proof.
  apply (accepted_content_is_stored_verbatim plain_platform good_disk dead_net
           sample_envelope empty_state).
  vm_compute. reflexivity.
Defined.

(** ** Identifiers *)

Lemma written_app t1 t2 : written (t1 ++ t2) = written t1 ++ written t2.
Proof. unfold written. apply omap_app. Qed.

Lemma written_quiet d :
  Forall (λ e, storage_event e = false) d → written d = [].
Proof.
  induction 1 as [|e d He _ IH]; [done|].
  unfold written in *. by destruct e as [|? ? [|]| | |].
Qed.

(** An accepted message went to the first unused file name. *)
Lemma handle_DATA_accepted P D N env st :
  (handle_DATA P D N env st).1 = Ret "250 Message accepted for delivery" →
  ∃ i new,
    (1 ≤ i)%nat ∧ files st !! msg_path i = None ∧
    (∀ j, (1 ≤ j < i)%nat → is_Some (files st !! msg_path j)) ∧
    (handle_DATA P D N env st).2 =
      State (<[msg_path i := content env]> (files st)) (trace st ++ new) ∧
    written new = [msg_path i].
Proof.
  intros Hok.
  pose proof (handle_DATA_run P D N env st) as Hrun. cbv zeta in Hrun.
  destruct (os_makedirs D (trace st) MAIL_DIR) as [e|] eqn:Hmk.
  { by rewrite Hrun in Hok. }
  destruct Hrun as (i & Hi & Hrun). apply probe_found in Hi as (Hle & Hfree & Hused).
  destruct (open_write D _ (msg_path i) (content env)) as [|e lb] eqn:Hw.
  - destruct Hrun as (d & _ & Hd & ->). simpl.
    exists i, ([EvMakedirs MAIL_DIR None; EvWrite (msg_path i) (content env) None] ++ d).
    split_and!; [done..| |].
    + by rewrite <- !app_assoc.
    + rewrite written_app, (written_quiet d Hd). done.
  - by rewrite Hrun in Hok.
Qed.

Lemma serve_sequential P D N envs : ∀ st n,
  (∀ j, is_Some (files st !! msg_path j) ↔ (1 ≤ j ≤ n)%nat) →
  Forall (λ r, r = Ret "250 Message accepted for delivery")
    (serve P D N envs st).1 →
  ∃ new, trace (serve P D N envs st).2 = trace st ++ new ∧
    written new = msg_path <$> seq (S n) (length envs).
Proof.
  induction envs as [|env envs IH]; intros st n Hinv Hall; simpl in *.
  { exists []. by rewrite app_nil_r. }
  destruct (handle_DATA P D N env st) as [r st1] eqn:Hrun.
  destruct (serve P D N envs st1) as [rs st2] eqn:Hrest. simpl in *.
  apply Forall_cons in Hall as [-> Hall].
  pose proof (handle_DATA_accepted P D N env st) as Hacc.
  rewrite Hrun in Hacc. simpl in Hacc.
  destruct (Hacc eq_refl) as (i & new & Hle & Hfree & Hused & -> & Hnew).
  assert (i = S n) as ->.
  { destruct (decide (i ≤ n)%nat) as [Hin|Hin].
    - assert (is_Some (files st !! msg_path i)) as [? ?] by (apply Hinv; lia).
      congruence.
    - destruct (decide (i = S n)) as [|Hne]; [done|].
      assert (is_Some (files st !! msg_path (S n))) as Hs by (apply Hused; lia).
      apply Hinv in Hs. lia. }
  specialize (IH (State (<[msg_path (S n) := content env]> (files st))
                        (trace st ++ new)) (S n)).
  rewrite Hrest in IH. simpl in IH.
  destruct IH as (new' & -> & Hnew'); [|done|].
  - intros j. destruct (decide (j = S n)) as [->|Hne].
    + rewrite lookup_insert_eq. split; [lia|by eexists].
    + rewrite lookup_insert_ne by (by intros ?%(inj msg_path)).
      rewrite Hinv. lia.
  - exists (new ++ new'). rewrite app_assoc. split; [done|].
    by rewrite written_app, Hnew, Hnew'.
Qed.

(** C4: an accepted message gets the smallest identifier from 1 on whose
    file name is unused; hence [N] messages accepted one after the other,
    from an empty store, get the identifiers 1, 2, ..., N in that order. *)
Theorem identifiers_are_sequential P D N :
  (∀ env st,
     (handle_DATA P D N env st).1 = Ret "250 Message accepted for delivery" →
     ∃ i, (1 ≤ i)%nat ∧ files st !! msg_path i = None ∧
       (∀ j, (1 ≤ j < i)%nat → is_Some (files st !! msg_path j)) ∧
       written (added st (handle_DATA P D N env st).2) = [msg_path i]) ∧
  (∀ envs st,
     files st = ∅ →
     Forall (λ r, r = Ret "250 Message accepted for delivery")
       (serve P D N envs st).1 →
     written (added st (serve P D N envs st).2) =
       msg_path <$> seq 1 (length envs)).
Proof.
  split.
  - intros env st Hok.
    destruct (handle_DATA_accepted P D N env st Hok)
      as (i & new & Hle & Hfree & Hused & Hst & Hnew).
    exists i. split_and!; [done..|].
    unfold added. rewrite Hst. simpl. by rewrite drop_app_length.
  - intros envs st Hempty Hall.
    destruct (serve_sequential P D N envs st 0) as (new & Hst & Hnew); [|done|].
    + intros j. rewrite Hempty, lookup_empty. split; [by intros [? ?]|lia].
    + unfold added. by rewrite Hst, drop_app_length.
Qed.

Lemma identifiers_are_sequential_witness :
  written (added empty_state
             (serve plain_platform good_disk dead_net
                [sample_envelope; sample_envelope; sample_envelope]
                empty_state).2) =
    msg_path <$> seq 1 3.
Proof.
  apply (proj2 (identifiers_are_sequential plain_platform good_disk dead_net)
           [sample_envelope; sample_envelope; sample_envelope] empty_state).
  - reflexivity.
  - vm_compute. repeat constructor.
Defined.

(** ** The envelope sender *)

Lemma split_go_pending cur s : split_go (Some cur) s ≠ [].
Proof.
  revert cur. induction s as [|a s IH]; intros cur; simpl; [done|].
  destruct (isspace a); [done|apply IH].
Qed.

(** A string with an at sign has a last whitespace-delimited token. *)
Lemma split_with_at frm : contains "@" frm = true → is_Some (last (split frm)).
Proof.
  intros Hat. apply last_is_Some. unfold split.
  induction frm as [|a frm IH]; simpl in *; [done|].
  destruct (decide (a = "@"%char)) as [->|Hne]; [apply split_go_pending|].
  destruct (isspace a); [by apply IH|apply split_go_pending].
Qed.

(** C8, as the code has it: the relay user name wins; else a [From] header
    with an at sign gives its last whitespace-delimited token without the
    surrounding angle brackets; else a [From] header that is not empty is
    returned as it is; else the result is "postmaster@localhost". *)
Theorem envelope_from_precedence P content :
  (∀ u, getenv P "SMTP_RELAY_USERNAME" = Some u → u ≠ "" →
     envelope_from P content = u) ∧
  (truthy (getenv P "SMTP_RELAY_USERNAME") = false →
   match email_From P content with
   | HeaderStr frm =>
       if contains "@" frm then
         ∃ before tok, split frm = before ++ [tok] ∧
           envelope_from P content =
             strip (in_chars ["<"; ">"; "010"; "013"]%char) tok
       else if decide (frm = "") then
         envelope_from P content = "postmaster@localhost"
       else envelope_from P content = frm
   | HeaderAbsent | HeaderRaises | HeaderObject =>
       envelope_from P content = "postmaster@localhost"
   end) ∧
  envelope_from relay_platform content = "relay@x.com" ∧
  envelope_from parsing_platform alice_message = "alice@example.com" ∧
  envelope_from plain_platform content = "postmaster@localhost".
Proof.
  split_and!; [| |done..].
  - intros u Hu Hne. unfold envelope_from. rewrite Hu.
    by destruct u.
  - intros Hno. unfold envelope_from. rewrite Hno.
    destruct (email_From P content) as [| |frm|]; [done..| |done].
    destruct (contains "@" frm) eqn:Hat.
    + destruct (split_with_at frm Hat) as [tok Htok]. rewrite Htok.
      apply last_Some in Htok as [before Hsplit]. exists before, tok.
      split; [done|]. by destruct frm.
    + by destruct frm.
Qed.

Lemma envelope_from_precedence_witness :
  envelope_from relay_platform alice_message = "relay@x.com" ∧
  envelope_from parsing_platform bare_from_message = "alice".
Proof.
  split.
  - apply (proj1 (envelope_from_precedence relay_platform alice_message)
             "relay@x.com"); [reflexivity|discriminate].
  - apply (proj1 (proj2 (envelope_from_precedence parsing_platform
                           bare_from_message))).
    reflexivity.
Defined.

(** C8 as stated fails where the [From] header has no at sign: the header
    "From: alice" yields "alice", not the default address. *)
Lemma envelope_from_without_at_counterexample :
  truthy (getenv parsing_platform "SMTP_RELAY_USERNAME") = false ∧
  email_From parsing_platform bare_from_message = HeaderStr "alice" ∧
  contains "@" "alice" = false ∧
  envelope_from parsing_platform bare_from_message = "alice" ∧
  envelope_from parsing_platform bare_from_message ≠ "postmaster@localhost".
Proof. split_and!; [reflexivity..|discriminate]. Qed.

(** ** The order of the MX hosts *)

Global Instance tuple_le_total : Total tuple_le.
Proof.
  intros [a s] [c t]. unfold tuple_le. simpl.
  destruct (Z.lt_trichotomy a c) as [?|[->|?]]; [auto| |auto].
  destruct (total String.le s t); auto.
Qed.

Global Instance tuple_le_trans : Transitive tuple_le.
Proof.
  intros [a s] [c t] [d u]. unfold tuple_le. simpl.
  intros [?|[-> Hst]] [?|[-> Htu]]; [left; lia..|].
  right. split; [done|]. by trans t.
Qed.

Global Instance tuple_le_antisymm : AntiSymm (=) tuple_le.
Proof.
  intros [a s] [c t]. unfold tuple_le. simpl.
  intros [?|[-> Hst]] [?|[? Hts]]; try lia.
  f_equal. by apply (anti_symm String.le).
Qed.

Lemma queries_app t1 t2 : queries (t1 ++ t2) = queries t1 ++ queries t2.
Proof. unfold queries. apply omap_app. Qed.

Section Order.
Context (P : Platform) (N : Net).

Lemma get_mx_hosts_sorted domain st answers :
  dns_resolve_MX N (trace st) domain = inr answers →
  ∃ mx,
    _get_mx_hosts N domain st =
      (Ret (snd <$> mx),
       State (files st) (trace st ++ [EvDns domain (inr answers)])) ∧
    mx ≡ₚ (λ r, (preference r, rstrip (in_chars ["."]%char) (exchange r)))
            <$> answers ∧
    StronglySorted tuple_le mx.
Proof.
  intros Hdns. eexists. split_and!.
  - unfold _get_mx_hosts, mbind, M_bind, dns_call. rewrite Hdns. reflexivity.
  - apply merge_sort_Permutation.
  - apply (StronglySorted_merge_sort _).
Qed.

(** One attempt connects to its host on port 25, once, logs no warning and
    makes no DNS query. *)
Lemma mx_attempt_run rcpt domain content host st :
  ∃ d,
    (mx_attempt P N rcpt domain content host st).2 =
      State (files st) (trace st ++ d) ∧
    connects d = [(host, 25)] ∧
    warnings d = [] ∧
    queries d = [] ∧
    (mx_attempt P N rcpt domain content host st).1 ≠ Hang.
Proof.
  unfold mx_attempt, with_SMTP, smtp_exit, smtp_call, logging_info, emit,
    try, raise, mbind, M_bind, mret, M_ret.
  simpl.
  repeat (match goal with
          | |- context [smtp N ?t ?op] => destruct (smtp N t op) eqn:?; simpl
          | |- context [disconnected ?e] => destruct (disconnected e) eqn:?; simpl
          end);
    (eexists; split_and!;
     [rewrite <- ?app_assoc; simpl; reflexivity|reflexivity..|done]).
Qed.

Lemma connects_app t1 t2 : connects (t1 ++ t2) = connects t1 ++ connects t2.
Proof. unfold connects. apply omap_app. Qed.

Lemma warnings_app t1 t2 : warnings (t1 ++ t2) = warnings t1 ++ warnings t2.
Proof. unfold warnings. apply filter_app. Qed.

(** The loop tries the hosts in the order of the list and stops at the first
    attempt that does not raise. *)
Lemma mx_loop_run rcpt domain content hosts : ∀ last_exc st,
  ∃ k new,
    (mx_loop P N rcpt domain content hosts last_exc st).2 =
      State (files st) (trace st ++ new) ∧
    (k ≤ length hosts)%nat ∧
    connects new = (λ h, (h, 25)) <$> take k hosts ∧
    queries new = [] ∧
    match (mx_loop P N rcpt domain content hosts last_exc st).1 with
    | Ret _ => (0 < k)%nat ∧ length (warnings new) = (k - 1)%nat
    | Exc e => k = length hosts ∧ length (warnings new) = k
    | Hang => False
    end.
Proof.
  induction hosts as [|host rest IH]; intros last_exc st; simpl.
  { exists 0%nat, []. destruct st. simpl. by rewrite app_nil_r. }
  destruct (mx_attempt_run rcpt domain content host st)
    as (d & Hst & Hc & Hw & Hq & Hh).
  unfold mbind, M_bind, try.
  destruct (mx_attempt P N rcpt domain content host st) as [[[]|e|] st'];
    simpl in *; subst; [| |done].
  - exists 1%nat, d. rewrite Hw. simpl. split_and!; [done|lia|done|done|lia|done].
  - set (w := EvLog WARNING "Delivery to %s via %s failed: %s"
                [ArgStr rcpt; ArgStr host; ArgExc e] None).
    destruct (IH (Some e) (State (files st) ((trace st ++ d) ++ [w])))
      as (k & new & Hst' & Hk & Hc' & Hq' & Hres).
    exists (S k), (d ++ w :: new). simpl in *.
    unfold logging_warning, emit. simpl. fold w. rewrite Hst'.
    split_and!.
    + by rewrite <- !app_assoc.
    + lia.
    + rewrite connects_app, Hc. simpl. by rewrite Hc'.
    + rewrite queries_app, Hq. simpl. by rewrite Hq'.
    + rewrite warnings_app, Hw. simpl. fold (warnings new).
      destruct (mx_loop P N rcpt domain content rest (Some e) _).1;
        [|destruct Hres as [-> ->]; done|done].
      destruct Hres as [? ->]. split; lia.
Qed.

End Order.

(** C6, as the code has it: the resolver returns the host names in ascending
    order of the pairs (preference, name), so a lower preference comes first
    and records of equal preference are ordered by name; the delivery then
    connects to the hosts in exactly that order, on port 25, and stops at the
    first attempt that succeeds.  For the records (10, mx1.example) and
    (5, mx2.example) the order is mx2.example, mx1.example. *)
Theorem mx_hosts_tried_in_sorted_order P N :
  (∀ rcpt domain content st answers,
     split1 "@" rcpt !! 1%nat = Some domain →
     dns_resolve_MX N (trace st) domain = inr answers →
     ∃ mx k,
       mx ≡ₚ (λ r, (preference r, rstrip (in_chars ["."]%char) (exchange r)))
               <$> answers ∧
       StronglySorted tuple_le mx ∧
       (_get_mx_hosts N domain st).1 = Ret (snd <$> mx) ∧
       (k ≤ length mx)%nat ∧
       connects (added st (mx_delivery P N rcpt content st).2) =
         (λ h, (h, 25)) <$> take k (snd <$> mx) ∧
       match (mx_delivery P N rcpt content st).1 with
       | Ret _ =>
           (0 < k)%nat ∧
           length (warnings (added st (mx_delivery P N rcpt content st).2)) =
             (k - 1)%nat
       | Exc _ =>
           k = length mx ∧
           length (warnings (added st (mx_delivery P N rcpt content st).2)) = k
       | Hang => False
       end) ∧
  (∀ domain st,
     dns_resolve_MX N (trace st) domain =
       inr [MX 10 "mx1.example"; MX 5 "mx2.example"] →
     (_get_mx_hosts N domain st).1 = Ret ["mx2.example"; "mx1.example"]).
Proof.
  split.
  - intros rcpt domain content st answers Hdom Hdns.
    destruct (get_mx_hosts_sorted N domain st answers Hdns)
      as (mx & Hget & Hperm & Hsorted).
    unfold mx_delivery, mbind, M_bind, added. rewrite Hdom. simpl.
    rewrite Hget. cbn [fst snd].
    exists mx. assert (length (snd <$> mx) = length mx) as Hlen
      by apply length_fmap.
    destruct (snd <$> mx) as [|h hosts] eqn:Hhosts.
    + exists 0%nat. simpl. rewrite drop_app_length. simpl in Hlen.
      split_and!; try done; lia.
    + destruct (mx_loop_run P N rcpt domain content (h :: hosts) None
                  (State (files st) (trace st ++ [EvDns domain (inr answers)])))
        as (k & new & Hst & Hk & Hc & _ & Hres).
      exists k. rewrite Hst. cbn [files trace fst snd].
      rewrite <- app_assoc, drop_app_length.
      change ([EvDns domain (inr answers)] ++ new)
        with (EvDns domain (inr answers) :: new).
      change (connects (EvDns domain (inr answers) :: new)) with (connects new).
      change (warnings (EvDns domain (inr answers) :: new)) with (warnings new).
      rewrite <- Hlen.
      split_and!; [done..|].
      destruct (mx_loop P N rcpt domain content (h :: hosts) None _).1; done.
  - intros domain st Hdns.
    unfold _get_mx_hosts, mbind, M_bind, dns_call. by rewrite Hdns.
Qed.

Lemma mx_hosts_tried_in_sorted_order_witness :
  ∃ mx k,
    mx ≡ₚ [(10, "mx1.example"); (5, "mx2.example")] ∧
    StronglySorted tuple_le mx ∧
    (_get_mx_hosts good_net "example.org" empty_state).1 = Ret (snd <$> mx) ∧
    (k ≤ length mx)%nat ∧
    connects (added empty_state
                (mx_delivery plain_platform good_net "bob@example.org"
                   (b "hi") empty_state).2) =
      (λ h, (h, 25)) <$> take k (snd <$> mx) ∧
    (0 < k)%nat ∧
    length (warnings (added empty_state
                        (mx_delivery plain_platform good_net "bob@example.org"
                           (b "hi") empty_state).2)) = (k - 1)%nat.
Proof.
  apply (proj1 (mx_hosts_tried_in_sorted_order plain_platform good_net)
           "bob@example.org" "example.org" (b "hi") empty_state
           [MX 10 "mx1.example."; MX 5 "mx2.example."]); reflexivity.
Defined.

(** C6 as stated fails on ties: two records of preference 10 that the
    resolver returns as b.example, a.example are tried as a.example first. *)
Lemma mx_tie_order_counterexample :
  dns_resolve_MX tie_net (trace empty_state) "example.org" =
    inr [MX 10 "b.example."; MX 10 "a.example."] ∧
  (_get_mx_hosts tie_net "example.org" empty_state).1 =
    Ret ["a.example"; "b.example"] ∧
  connects (added empty_state
              (mx_delivery plain_platform tie_net "bob@example.org"
                 (b "hi") empty_state).2) = [("a.example", 25)].
Proof. split_and!; vm_compute; reflexivity. Qed.

(** ** The MX step *)

Lemma deliver_from_mx_step P N rcpt content st s1 :
  reaches_mx_fallback P N rcpt content st s1 →
  _deliver_to_recipient P N rcpt content st = mx_delivery P N rcpt content s1.
Proof.
  intros (port & Hport & Hrelay).
  unfold _deliver_to_recipient, mbind, M_bind. rewrite Hport. simpl.
  destruct (truthy (getenv P "SMTP_RELAY_SERVER")).
  - unfold relay_attempt in Hrelay. by rewrite Hrelay.
  - by subst.
Qed.

(** A delivery that raises is logged by the handler, which then returns. *)
Lemma deliver_logged_raises P N content rcpt st exc st' :
  _deliver_to_recipient P N rcpt content st = (Exc exc, st') →
  deliver_logged P N content rcpt st =
    (Ret tt,
     State (files st')
       (trace st' ++
        [EvLog ERROR "Delivery attempt failed for %s" [ArgStr rcpt] (Some exc)])).
Proof.
  intros Hraise. unfold deliver_logged, try, mbind, M_bind. by rewrite Hraise.
Qed.

(** C7: at the MX step, an empty answer of the resolver makes the delivery
    raise "No MX hosts found" at once, and an error of the resolver makes it
    raise that error at once; in both cases the DNS query is the last event
    of the delivery, so no connection is attempted, and the handler treats
    both alike: it logs one failure record for the recipient and goes on. *)
Theorem no_mx_hosts_fails_without_connection P N rcpt domain content st s1 :
  reaches_mx_fallback P N rcpt content st s1 →
  split1 "@" rcpt !! 1%nat = Some domain →
  (dns_resolve_MX N (trace s1) domain = inr [] →
     let exc := RuntimeError ("No MX hosts found for " +:+ domain) in
     _deliver_to_recipient P N rcpt content st =
       (Exc exc, State (files s1) (trace s1 ++ [EvDns domain (inr [])])) ∧
     connects (added s1 (_deliver_to_recipient P N rcpt content st).2) = [] ∧
     deliver_logged P N content rcpt st =
       (Ret tt,
        State (files s1)
          (trace s1 ++
           [EvDns domain (inr []);
            EvLog ERROR "Delivery attempt failed for %s" [ArgStr rcpt]
              (Some exc)]))) ∧
  (∀ exc, dns_resolve_MX N (trace s1) domain = inl exc →
     _deliver_to_recipient P N rcpt content st =
       (Exc exc, State (files s1) (trace s1 ++ [EvDns domain (inl exc)])) ∧
     connects (added s1 (_deliver_to_recipient P N rcpt content st).2) = [] ∧
     deliver_logged P N content rcpt st =
       (Ret tt,
        State (files s1)
          (trace s1 ++
           [EvDns domain (inl exc);
            EvLog ERROR "Delivery attempt failed for %s" [ArgStr rcpt]
              (Some exc)]))).
Proof.
  intros Hreach Hdom.
  assert (_deliver_to_recipient P N rcpt content st =
          match dns_resolve_MX N (trace s1) domain with
          | inr [] =>
              (Exc (RuntimeError ("No MX hosts found for " +:+ domain)),
               State (files s1) (trace s1 ++ [EvDns domain (inr [])]))
          | inl exc =>
              (Exc exc, State (files s1) (trace s1 ++ [EvDns domain (inl exc)]))
          | inr _ => _deliver_to_recipient P N rcpt content st
          end) as Hraise.
  { destruct (dns_resolve_MX N (trace s1) domain) as [exc|[|a answers]] eqn:Hdns;
      [| |done];
      rewrite (deliver_from_mx_step _ _ _ _ _ _ Hreach);
      unfold mx_delivery, _get_mx_hosts, dns_call, mbind, M_bind;
      rewrite Hdom; simpl; by rewrite Hdns. }
  split.
  - intros Hdns exc. rewrite Hdns in Hraise.
    rewrite (deliver_logged_raises _ _ _ _ _ _ _ Hraise), Hraise.
    unfold added. simpl. rewrite drop_app_length, <- app_assoc. done.
  - intros exc Hdns. rewrite Hdns in Hraise.
    rewrite (deliver_logged_raises _ _ _ _ _ _ _ Hraise), Hraise.
    unfold added. simpl. rewrite drop_app_length, <- app_assoc. done.
Qed.

Lemma no_mx_hosts_fails_without_connection_witness :
  (_deliver_to_recipient plain_platform no_mx_net "a@nomx.test" (b "hi")
     empty_state =
     (Exc (RuntimeError "No MX hosts found for nomx.test"),
      State ∅ [EvDns "nomx.test" (inr [])])) ∧
  (_deliver_to_recipient plain_platform dead_net "a@nomx.test" (b "hi")
     empty_state =
     (Exc (DNSException "NXDOMAIN"),
      State ∅ [EvDns "nomx.test" (inl (DNSException "NXDOMAIN"))])).
Proof.
  split.
  - apply (proj1 (no_mx_hosts_fails_without_connection plain_platform no_mx_net
                    "a@nomx.test" "nomx.test" (b "hi") empty_state empty_state
                    (ex_intro _ 0 (conj eq_refl eq_refl)) eq_refl)).
    reflexivity.
  - apply (proj2 (no_mx_hosts_fails_without_connection plain_platform dead_net
                    "a@nomx.test" "nomx.test" (b "hi") empty_state empty_state
                    (ex_intro _ 0 (conj eq_refl eq_refl)) eq_refl)).
    reflexivity.
Defined.

(** ** The relay attempt *)

(** The relay attempt never raises.  It connects to the relay host first,
    makes the calls of the plan in order up to the first one that raises, and
    reports success exactly when none failed. *)
Lemma relay_attempt_run P N port rcpt content st :
  let host := str_of (getenv P "SMTP_RELAY_SERVER") in
  let plan := relay_plan P host port rcpt content in
  ∃ ok d,
    relay_attempt P N port rcpt content st =
      (Ret ok, State (files st) (trace st ++ d)) ∧
    connects d = [(host, if decide (port = 0) then 587 else port)] ∧
    queries d = [] ∧
    before_quit d `prefix_of` plan ∧
    ok = negb (smtp_failed d) ∧
    (ok = true → smtp_ops d = plan ++ [Quit]) ∧
    (ok = false →
       ∃ exc, last d = Some (EvLog ERROR "Relay delivery to %s via %s failed"
                               [ArgStr rcpt; ArgStr host] (Some exc))).
Proof.
  intros host plan. subst host plan.
  unfold relay_attempt, relay_delivery, relay_plan, with_SMTP, smtp_exit,
    smtp_call, logging_info, logging_exception, emit, try, raise, mbind,
    M_bind, mret, M_ret.
  destruct (read_relay_starttls P);
    destruct (truthy (getenv P "SMTP_RELAY_USERNAME") &&
              truthy (getenv P "SMTP_RELAY_PASSWORD"));
    simpl;
    repeat (match goal with
            | |- context [smtp N ?t ?op] => destruct (smtp N t op) eqn:?; simpl
            | |- context [disconnected ?e] =>
                destruct (disconnected e) eqn:?; simpl
            end);
    (eexists _, _; split_and!;
     [rewrite <- ?app_assoc; simpl; reflexivity
     |reflexivity
     |reflexivity
     |by eexists
     |simpl; by repeat match goal with
                       | H : disconnected _ = _ |- _ => rewrite H; clear H
                       end
     |try done
     |try done; intros _; by eexists]).
Qed.

(** The MX step makes one DNS query, for the domain of the recipient, when
    the address has one, and none otherwise. *)
Lemma mx_delivery_queries P N rcpt content st :
  ∃ new,
    (mx_delivery P N rcpt content st).2 = State (files st) (trace st ++ new) ∧
    queries new = match split1 "@" rcpt !! 1%nat with
                  | Some domain => [domain]
                  | None => []
                  end.
Proof.
  unfold mx_delivery, _get_mx_hosts, dns_call, mbind, M_bind.
  destruct (split1 "@" rcpt !! 1%nat) as [domain|]; simpl.
  2:{ exists []. destruct st. by rewrite app_nil_r. }
  destruct (dns_resolve_MX N (trace st) domain) as [e|answers] eqn:Hdns; simpl.
  { by eexists [_]. }
  destruct (snd <$> sorted _) as [|h hosts]; cbn -[mx_loop].
  { by eexists [_]. }
  destruct (mx_loop_run P N rcpt domain content (h :: hosts) None
              (State (files st) (trace st ++ [EvDns domain (inr answers)])))
    as (k & new & Hst & _ & _ & Hq & _).
  exists (EvDns domain (inr answers) :: new). rewrite Hst. simpl.
  rewrite <- app_assoc. split; [done|].
  change (queries (EvDns domain (inr answers) :: new)) with (domain :: queries new).
  by rewrite Hq.
Qed.

(** C5, as the code has it: with a relay host set and a port setting that
    is unset, empty or accepted by [int], the relay is attempted first, at
    the host and the port set (587 when the port is unset or zero); the
    calls follow the plan, which upgrades exactly when the STARTTLS flag is
    set and authenticates exactly when both credentials are there.  A relay
    attempt in which no call failed ends the delivery without any MX step;
    one in which a call failed is followed by the MX step, run once, and the
    exception of the relay is not raised further.  A call fails when it
    raises, with one exception: a [SMTPServerDisconnected] of the closing
    [QUIT] is dropped on leaving the [with] block, so a relay that takes the
    message and hangs up has succeeded. *)
Theorem relay_first_then_mx_fallback P N port rcpt content st :
  truthy (getenv P "SMTP_RELAY_SERVER") = true →
  read_relay_port P = Some port →
  let host := str_of (getenv P "SMTP_RELAY_SERVER") in
  let plan := relay_plan P host port rcpt content in
  let final := (_deliver_to_recipient P N rcpt content st).2 in
  (StartTLS ∈ plan ↔ read_relay_starttls P = true) ∧
  ((∃ u p, Login u p ∈ plan) ↔
     truthy (getenv P "SMTP_RELAY_USERNAME") &&
     truthy (getenv P "SMTP_RELAY_PASSWORD") = true) ∧
  ∃ ok sr,
    relay_attempt P N port rcpt content st = (Ret ok, sr) ∧
    trace st `prefix_of` trace sr ∧ trace sr `prefix_of` trace final ∧
    connects (added st sr) = [(host, if decide (port = 0) then 587 else port)] ∧
    queries (added st sr) = [] ∧
    before_quit (added st sr) `prefix_of` plan ∧
    ok = negb (smtp_failed (added st sr)) ∧
    if ok then
      smtp_ops (added st sr) = plan ++ [Quit] ∧
      _deliver_to_recipient P N rcpt content st = (Ret tt, sr)
    else
      _deliver_to_recipient P N rcpt content st = mx_delivery P N rcpt content sr ∧
      queries (added st final) =
        match split1 "@" rcpt !! 1%nat with
        | Some domain => [domain]
        | None => []
        end.
Proof.
  intros Hhost Hport host plan final. split_and!.
  - subst plan. unfold relay_plan.
    destruct (read_relay_starttls P), (truthy _ && truthy _); simpl;
      (split; [first [done|intros Hin; exfalso; absent Hin]
              |first [done|intros _; present]]).
  - subst plan. unfold relay_plan.
    destruct (read_relay_starttls P), (truthy _ && truthy _); simpl;
      (split; [first [done|intros (u & p & Hin); exfalso; absent Hin]
              |first [done|intros _; eexists _, _; present]]).
  - destruct (relay_attempt_run P N port rcpt content st)
      as (ok & d & Hrun & Hc & Hq & Hpre & Hok & Hgood & Hbad).
    exists ok, (State (files st) (trace st ++ d)).
    assert (_deliver_to_recipient P N rcpt content st =
            if ok then (Ret tt, State (files st) (trace st ++ d))
            else mx_delivery P N rcpt content (State (files st) (trace st ++ d)))
      as Hdeliver.
    { unfold _deliver_to_recipient, mbind, M_bind. rewrite Hport, Hhost. simpl.
      unfold relay_attempt in Hrun. rewrite Hrun. by destruct ok. }
    subst final. rewrite Hdeliver. unfold added. simpl.
    rewrite drop_app_length.
    split_and!; [done|by eexists| |done..|].
    + destruct ok; [done|].
      destruct (mx_delivery_queries P N rcpt content
                  (State (files st) (trace st ++ d))) as (new & -> & _).
      by eexists.
    + destruct ok; [by split; [apply Hgood|]|]. split; [done|].
      destruct (mx_delivery_queries P N rcpt content
                  (State (files st) (trace st ++ d))) as (new & -> & Hnew).
      simpl. rewrite <- app_assoc, drop_app_length, queries_app, Hq. done.
Qed.

Lemma relay_first_then_mx_fallback_witness :
  (∃ ok sr,
     relay_attempt relay_platform relay_down_net 587 "bob@example.org" (b "hi")
       empty_state = (Ret ok, sr) ∧
     connects (added empty_state sr) = [("smtp.gmail.com", 587)] ∧
     ok = negb (smtp_failed (added empty_state sr))) ∧
  (∃ ok sr,
     relay_attempt open_relay_platform no_tls_net 0 "bob@example.org" (b "hi")
       empty_state = (Ret ok, sr) ∧
     connects (added empty_state sr) = [("relay.example", 587)] ∧
     ok = negb (smtp_failed (added empty_state sr))) ∧
  (∃ sr,
     relay_attempt relay_platform hangup_net 587 "bob@example.org" (b "hi")
       empty_state = (Ret true, sr) ∧
     last (trace sr) =
       Some (EvLog INFO "Delivered message to %s via relay %s"
               [ArgStr "bob@example.org"; ArgStr "smtp.gmail.com"] None) ∧
     _deliver_to_recipient relay_platform hangup_net "bob@example.org" (b "hi")
       empty_state = (Ret tt, sr)).
Proof.
  split_and!.
  - assert (truthy (getenv relay_platform "SMTP_RELAY_SERVER") = true) as Hhost
      by (vm_compute; reflexivity).
    assert (read_relay_port relay_platform = Some 587) as Hport
      by (vm_compute; reflexivity).
    destruct (relay_first_then_mx_fallback relay_platform relay_down_net 587
                "bob@example.org" (b "hi") empty_state Hhost Hport)
      as (_ & _ & ok & sr & Hrun & _ & _ & Hc & _ & _ & Hok & _).
    exists ok, sr. split_and!; assumption.
  - assert (truthy (getenv open_relay_platform "SMTP_RELAY_SERVER") = true)
      as Hhost by (vm_compute; reflexivity).
    assert (read_relay_port open_relay_platform = Some 0) as Hport
      by (vm_compute; reflexivity).
    destruct (relay_first_then_mx_fallback open_relay_platform no_tls_net 0
                "bob@example.org" (b "hi") empty_state Hhost Hport)
      as (_ & _ & ok & sr & Hrun & _ & _ & Hc & _ & _ & Hok & _).
    exists ok, sr. split_and!; assumption.
  - assert (truthy (getenv relay_platform "SMTP_RELAY_SERVER") = true) as Hhost
      by (vm_compute; reflexivity).
    assert (read_relay_port relay_platform = Some 587) as Hport
      by (vm_compute; reflexivity).
    destruct (relay_first_then_mx_fallback relay_platform hangup_net 587
                "bob@example.org" (b "hi") empty_state Hhost Hport)
      as (_ & _ & ok & sr & Hrun & _ & _ & _ & _ & _ & _ & Hif).
    assert (ok = true ∧
            last (trace sr) =
              Some (EvLog INFO "Delivered message to %s via relay %s"
                      [ArgStr "bob@example.org"; ArgStr "smtp.gmail.com"] None))
      as [-> Hlast].
    { revert Hrun. vm_compute. by intros [= <- <-]. }
    exists sr. split_and!; [exact Hrun|exact Hlast|exact (proj2 Hif)].
Defined.

(** C5 as stated fails when the port setting is not a number: the relay
    host is set, yet the delivery raises before any connection, to the relay
    or to an MX host, and before any DNS query. *)
Lemma relay_unreadable_port_counterexample :
  truthy (getenv bad_port_platform "SMTP_RELAY_SERVER") = true ∧
  getenv bad_port_platform "SMTP_RELAY_PORT" = Some "abc" ∧
  _deliver_to_recipient bad_port_platform good_net "bob@example.org" (b "hi")
    empty_state =
    (Exc (ValueError "invalid literal for int() with base 10"), empty_state) ∧
  connects (added empty_state
              (_deliver_to_recipient bad_port_platform good_net
                 "bob@example.org" (b "hi") empty_state).2) = [] ∧
  queries (added empty_state
             (_deliver_to_recipient bad_port_platform good_net
                "bob@example.org" (b "hi") empty_state).2) = [].
Proof. split_and!; vm_compute; reflexivity. Qed.

(** ** The turns of the recipients *)

Lemma for_each_app_contained {A} (l1 l2 : list A) (f : A → M unit) st :
  (∀ x, contained (f x)) →
  for_each (l1 ++ l2) f st = for_each l2 f (for_each l1 f st).2.
Proof.
  intros Hf. revert st. induction l1 as [|x l1 IH]; intros st; simpl; [done|].
  unfold mbind, M_bind. destruct (Hf x st) as (d & -> & _). apply IH.
Qed.

Lemma deliver_logged_turn P N content rcpt st :
  let run := _deliver_to_recipient P N rcpt content st in
  run.1 ≠ Hang ∧ files run.2 = files st ∧
  deliver_logged P N content rcpt st =
    (Ret tt, State (files run.2) (trace run.2 ++ failure_record rcpt run.1)).
Proof.
  intros run. subst run.
  destruct (quiet_deliver_to_recipient P N rcpt content st) as (d & Hst & _ & Hh).
  unfold deliver_logged, mbind, M_bind, try.
  destruct (_deliver_to_recipient P N rcpt content st) as [[[]|e|] st'];
    simpl in *; subst; [| |done].
  - by rewrite app_nil_r.
  - done.
Qed.

(** In an accepted run every recipient gets its turn: after the recipients
    before it, whatever their outcome, its delivery is run from the state
    they left; the recipients after it follow; the files stay as stored. *)
Lemma recipient_turn P D N env st l1 r l2 :
  rcpt_tos env = l1 ++ r :: l2 →
  (handle_DATA P D N env st).1 = Ret "250 Message accepted for delivery" →
  ∃ i,
    probe (S (size (files st))) (files st) 1 = Some i ∧
    files st !! msg_path i = None ∧
    let body := deliver_logged P N (content env) in
    let s1 := (for_each l1 body (stored env st i)).2 in
    let run := _deliver_to_recipient P N r (content env) s1 in
    let s2 := State (files run.2) (trace run.2 ++ failure_record r run.1) in
    run.1 ≠ Hang ∧
    (handle_DATA P D N env st).2 = (for_each l2 body s2).2 ∧
    files s1 = files (stored env st i) ∧
    files run.2 = files (stored env st i) ∧
    files (handle_DATA P D N env st).2 = files (stored env st i) ∧
    files (handle_DATA P D N env st).2 !! msg_path i = Some (content env).
Proof.
  intros Hrcpts Hok.
  pose proof (handle_DATA_run P D N env st) as Hrun. cbv zeta in Hrun.
  destruct (os_makedirs D (trace st) MAIL_DIR) as [e|] eqn:Hmk.
  { by rewrite Hrun in Hok. }
  destruct Hrun as (i & Hi & Hrun).
  pose proof (probe_found _ _ _ _ Hi) as (_ & Hfree & _).
  destruct (open_write D _ (msg_path i) (content env)) as [|e lb] eqn:Hw.
  2:{ by rewrite Hrun in Hok. }
  destruct Hrun as (d & Hloop & _ & Hfinal). exists i. do 2 (split; [done|]).
  intros body s1 run s2. rewrite <- app_assoc in Hloop, Hfinal.
  change (State (<[msg_path i:=content env]> (files st))
            (trace st ++ [EvMakedirs MAIL_DIR None] ++
             [EvWrite (msg_path i) (content env) None]))
    with (stored env st i) in Hloop, Hfinal.
  fold body in Hloop.
  assert (∀ x, contained (body x)) as Hbody
    by (intros x; apply contained_deliver_logged).
  destruct (contained_for_each l1 body Hbody (stored env st i)) as (d1 & Hs1 & _).
  destruct (deliver_logged_turn P N (content env) r s1) as (Hh & Hfiles & Hturn).
  fold run in Hh, Hfiles, Hturn. fold s2 in Hturn.
  assert (files s1 = files (stored env st i)) as Hfs1.
  { subst s1. by rewrite Hs1. }
  rewrite Hrcpts, for_each_app_contained in Hloop by done.
  fold s1 in Hloop. simpl in Hloop. unfold mbind, M_bind in Hloop.
  fold body in Hturn. rewrite Hturn in Hloop.
  rewrite Hfinal. split_and!; [done| |done|congruence|done|].
  - by rewrite Hloop.
  - simpl. by rewrite lookup_insert_eq.
Qed.

(** C9: in an accepted run, the delivery of each recipient is run in full
    from the state its predecessors left, whether they failed or not, and
    the recipients after it are processed in turn; no delivery, failed or
    not, changes a file, so the stored copy stays as written. *)
Theorem recipients_are_isolated P D N env st l1 r l2 :
  rcpt_tos env = l1 ++ r :: l2 →
  (handle_DATA P D N env st).1 = Ret "250 Message accepted for delivery" →
  ∃ i,
    files st !! msg_path i = None ∧
    let body := deliver_logged P N (content env) in
    let s1 := (for_each l1 body (stored env st i)).2 in
    let run := _deliver_to_recipient P N r (content env) s1 in
    let s2 := State (files run.2) (trace run.2 ++ failure_record r run.1) in
    run.1 ≠ Hang ∧
    (handle_DATA P D N env st).2 = (for_each l2 body s2).2 ∧
    files s1 = files (stored env st i) ∧
    files run.2 = files (stored env st i) ∧
    files (handle_DATA P D N env st).2 = files (stored env st i) ∧
    files (handle_DATA P D N env st).2 !! msg_path i = Some (content env).
Proof.
  intros Hrcpts Hok.
  destruct (recipient_turn P D N env st l1 r l2 Hrcpts Hok) as (i & _ & Hturn).
  by exists i.
Qed.

Lemma recipients_are_isolated_witness :
  ∃ i,
    files empty_state !! msg_path i = None ∧
    let body := deliver_logged plain_platform partial_net
                  (content sample_envelope) in
    let s1 := (for_each ["a@nomx.test"] body
                 (stored sample_envelope empty_state i)).2 in
    let run := _deliver_to_recipient plain_platform partial_net "b@hasmx.test"
                 (content sample_envelope) s1 in
    let s2 := State (files run.2)
                (trace run.2 ++ failure_record "b@hasmx.test" run.1) in
    run.1 ≠ Hang ∧
    (handle_DATA plain_platform good_disk partial_net sample_envelope
       empty_state).2 = (for_each [] body s2).2 ∧
    files s1 = files (stored sample_envelope empty_state i) ∧
    files run.2 = files (stored sample_envelope empty_state i) ∧
    files (handle_DATA plain_platform good_disk partial_net sample_envelope
             empty_state).2 = files (stored sample_envelope empty_state i) ∧
    files (handle_DATA plain_platform good_disk partial_net sample_envelope
             empty_state).2 !! msg_path i = Some (content sample_envelope).
Proof.
  apply (recipients_are_isolated plain_platform good_disk partial_net
           sample_envelope empty_state ["a@nomx.test"] "b@hasmx.test" []).
  - reflexivity.
  - vm_compute. reflexivity.
Defined.

(** ** A recipient without a domain part *)





(** * Further properties of the relay *)

(** ** What holds of every delivery trace *)

Lemma added_app st fs d : added st (State fs (trace st ++ d)) = d.
Proof. unfold added. simpl. apply drop_app_length. Qed.

(** A property of traces that holds of the empty trace, of each event that
    is not an SMTP call, and of a trace put together from two that have it,
    holds of a whole run as soon as it holds of each relay attempt and of
    each attempt at one MX host. *)
Section Lift.
Context (P : Platform) (N : Net) (msg : bytes).
Context (Q : list event → Prop) (R : string → Prop).
Hypothesis Q_nil : Q [].
Hypothesis Q_app : ∀ t1 t2, Q t1 → Q t2 → Q (t1 ++ t2).
Hypothesis Q_other : ∀ e, (if e is EvSmtp _ _ then False else True) → Q [e].
Hypothesis Q_mx : ∀ rcpt domain host st,
  R rcpt → Q (added st (mx_attempt P N rcpt domain msg host st).2).
Hypothesis Q_relay : ∀ rcpt port st,
  R rcpt → Q (added st (relay_attempt P N port rcpt msg st).2).

Lemma lift_mx_loop rcpt domain hosts :
  R rcpt → ∀ last_exc st, ∃ d,
    (mx_loop P N rcpt domain msg hosts last_exc st).2 =
      State (files st) (trace st ++ d) ∧ Q d.
Proof.
  intros HR. induction hosts as [|host rest IH]; intros last_exc st; simpl.
  { exists []. destruct st. simpl. by rewrite app_nil_r. }
  pose proof (Q_mx rcpt domain host st HR) as HQ.
  destruct (mx_attempt_run P N rcpt domain msg host st)
    as (d & Hst & _ & _ & _ & Hh).
  rewrite Hst, added_app in HQ.
  unfold mbind, M_bind, try.
  destruct (mx_attempt P N rcpt domain msg host st) as [[[]|e|] st'];
    simpl in *; subst; [by exists d| |done].
  set (w := EvLog WARNING "Delivery to %s via %s failed: %s"
              [ArgStr rcpt; ArgStr host; ArgExc e] None).
  destruct (IH (Some e) (State (files st) ((trace st ++ d) ++ [w])))
    as (d' & Hst' & HQ').
  exists (d ++ [w] ++ d'). unfold logging_warning, emit. simpl. fold w.
  rewrite Hst'. simpl. rewrite <- !app_assoc. split; [done|].
  apply Q_app; [done|]. apply (Q_app [w] d'); [by apply Q_other|done].
Qed.

Lemma lift_mx_delivery rcpt :
  R rcpt → ∀ st, ∃ d,
    (mx_delivery P N rcpt msg st).2 = State (files st) (trace st ++ d) ∧ Q d.
Proof.
  intros HR st. unfold mx_delivery, _get_mx_hosts, dns_call, mbind, M_bind.
  destruct (split1 "@" rcpt !! 1%nat) as [domain|]; simpl.
  2:{ exists []. destruct st. by rewrite app_nil_r. }
  destruct (dns_resolve_MX N (trace st) domain) as [e|answers] eqn:Hdns; simpl.
  { eexists [_]. split; [done|]. by apply Q_other. }
  destruct (snd <$> sorted _) as [|h hosts]; cbn -[mx_loop].
  { eexists [_]. split; [done|]. by apply Q_other. }
  destruct (lift_mx_loop rcpt domain (h :: hosts) HR None
              (State (files st) (trace st ++ [EvDns domain (inr answers)])))
    as (d & Hst & HQ).
  exists ([EvDns domain (inr answers)] ++ d). rewrite Hst. simpl.
  rewrite <- app_assoc. split; [done|].
  apply (Q_app [_] d); [by apply Q_other|done].
Qed.

Lemma lift_deliver rcpt :
  R rcpt → ∀ st, ∃ d,
    (_deliver_to_recipient P N rcpt msg st).2 =
      State (files st) (trace st ++ d) ∧ Q d.
Proof.
  intros HR st. unfold _deliver_to_recipient, mbind, M_bind.
  destruct (read_relay_port P) as [port|]; simpl.
  2:{ exists []. destruct st. by rewrite app_nil_r. }
  destruct (truthy (getenv P "SMTP_RELAY_SERVER")); simpl.
  - pose proof (Q_relay rcpt port st HR) as HQ.
    destruct (relay_attempt_run P N port rcpt msg st)
      as (ok & d & Hrun & _). cbv zeta in Hrun.
    rewrite Hrun in HQ. simpl in HQ. rewrite added_app in HQ.
    unfold relay_attempt in Hrun. rewrite Hrun. destruct ok; [by exists d|].
    destruct (lift_mx_delivery rcpt HR (State (files st) (trace st ++ d)))
      as (d' & Hst' & HQ').
    exists (d ++ d'). rewrite Hst'. simpl. rewrite <- app_assoc.
    split; [done|]. by apply Q_app.
  - apply (lift_mx_delivery rcpt HR).
Qed.

Lemma lift_deliver_logged rcpt :
  R rcpt → ∀ st, ∃ d,
    deliver_logged P N msg rcpt st =
      (Ret tt, State (files st) (trace st ++ d)) ∧ Q d.
Proof.
  intros HR st.
  destruct (deliver_logged_turn P N msg rcpt st) as (_ & _ & ->).
  destruct (lift_deliver rcpt HR st) as (d & Hst & HQ). rewrite Hst. simpl.
  exists (d ++ failure_record rcpt (_deliver_to_recipient P N rcpt msg st).1).
  rewrite <- app_assoc. split; [done|]. apply Q_app; [done|].
  destruct (_deliver_to_recipient P N rcpt msg st).1; simpl;
    [done|by apply Q_other|done].
Qed.

Lemma lift_for_each rcpts :
  Forall R rcpts → ∀ st, ∃ d,
    for_each rcpts (deliver_logged P N msg) st =
      (Ret tt, State (files st) (trace st ++ d)) ∧ Q d.
Proof.
  induction 1 as [|rcpt rcpts HR _ IH]; intros st; simpl.
  { exists []. destruct st. by rewrite app_nil_r. }
  unfold mbind, M_bind.
  destruct (lift_deliver_logged rcpt HR st) as (d & -> & HQ).
  destruct (IH (State (files st) (trace st ++ d))) as (d' & -> & HQ').
  exists (d ++ d'). simpl. rewrite <- app_assoc. split; [done|]. by apply Q_app.
Qed.

Lemma lift_handle_DATA D env st :
  content env = msg → Forall R (rcpt_tos env) →
  Q (added st (handle_DATA P D N env st).2).
Proof.
  intros Hmsg HR.
  pose proof (handle_DATA_run P D N env st) as Hrun. cbv zeta in Hrun.
  rewrite Hmsg in Hrun.
  destruct (os_makedirs D (trace st) MAIL_DIR) as [e|] eqn:Hmk.
  { rewrite Hrun. simpl. rewrite added_app. by apply Q_other. }
  destruct Hrun as (i & _ & Hrun).
  destruct (open_write D _ (msg_path i) msg) as [|e lb].
  - destruct Hrun as (d & Hloop & _ & ->). simpl.
    destruct (lift_for_each (rcpt_tos env) HR
                (State (<[msg_path i:=msg]> (files st))
                   ((trace st ++ [EvMakedirs MAIL_DIR None]) ++
                    [EvWrite (msg_path i) msg None])))
      as (d' & Hloop' & HQ).
    rewrite Hloop in Hloop'. simpl in Hloop'.
    injection Hloop' as Heq%app_inv_head. subst d'.
    rewrite <- !app_assoc, added_app.
    apply (Q_app [_] (_ :: d)); [by apply Q_other|].
    apply (Q_app [_] d); [by apply Q_other|done].
  - rewrite Hrun. simpl. rewrite <- !app_assoc, added_app.
    apply (Q_app [_] [_; _]); [by apply Q_other|].
    apply (Q_app [_] [_]); by apply Q_other.
Qed.

End Lift.

Ltac smtp_cases N :=
  repeat match goal with
         | |- context [smtp N ?t ?op] => destruct (smtp N t op) eqn:?; simpl
         | |- context [disconnected ?e] => destruct (disconnected e) eqn:?; simpl
         end.

Ltac run_mx_attempt N :=
  unfold mx_attempt, with_SMTP, smtp_exit, smtp_call, logging_info, emit, try,
    raise, mbind, M_bind, mret, M_ret, added;
  simpl; smtp_cases N; rewrite <- ?app_assoc; simpl; rewrite drop_app_length.

Ltac run_relay_attempt P N :=
  unfold relay_attempt, relay_delivery, with_SMTP, smtp_exit, smtp_call,
    logging_info, logging_exception, emit, try, raise, mbind, M_bind, mret,
    M_ret, added;
  destruct (read_relay_starttls P);
  destruct (truthy (getenv P "SMTP_RELAY_USERNAME") &&
            truthy (getenv P "SMTP_RELAY_PASSWORD"));
  simpl; smtp_cases N; rewrite <- ?app_assoc; simpl; rewrite drop_app_length.

Lemma count_app f t1 t2 : count f (t1 ++ t2) = (count f t1 + count f t2)%nat.
Proof. unfold count. by rewrite filter_app, length_app. Qed.

(** X1: Every connection that a run of the handler opens is closed again: the
    run has as many [QUIT] exchanges as connections that were set up. *)
Theorem connections_are_closed P D N env st :
  count is_close (added st (handle_DATA P D N env st).2) =
  count is_open (added st (handle_DATA P D N env st).2).
Proof.
  apply (lift_handle_DATA P N (content env)
           (λ t, count is_close t = count is_open t) (λ _, True)).
  - done.
  - intros t1 t2 H1 H2. by rewrite !count_app, H1, H2.
  - by intros [].
  - intros rcpt domain host s _. run_mx_attempt N; reflexivity.
  - intros rcpt port s _. run_relay_attempt P N; reflexivity.
  - done.
  - by apply Forall_true.
Qed.

(** X2: Whatever the handler transmits is the message as received: every
    [sendmail] of a run carries the content of the envelope unchanged, goes
    to exactly one address, which is one of the envelope's recipients, and
    names the sender that [envelope_from] computes from the content (the
    sender of the envelope itself is not used). *)
Theorem content_is_forwarded_unchanged P D N env st :
  Forall (forwards P (content env) (rcpt_tos env))
    (added st (handle_DATA P D N env st).2).
Proof.
  apply (lift_handle_DATA P N (content env)
           (Forall (forwards P (content env) (rcpt_tos env)))
           (λ r, r ∈ rcpt_tos env)).
  - done.
  - intros t1 t2 H1 H2. by apply Forall_app.
  - intros [] He; try done; by repeat constructor.
  - intros rcpt domain host s Hr. run_mx_attempt N;
      repeat (constructor; [simpl; by eauto|]); constructor.
  - intros rcpt port s Hr. run_relay_attempt P N;
      repeat (constructor; [simpl; by eauto|]); constructor.
  - done.
  - by apply Forall_forall.
Qed.

Lemma credentials_guarded_app t1 t2 : ∀ u,
  credentials_guarded u t1 = true →
  (∀ u', credentials_guarded u' t2 = true) →
  credentials_guarded u (t1 ++ t2) = true.
Proof.
  induction t1 as [|e t1 IH]; intros u H1 H2; simpl in *; [done|].
  destruct e as [| |[| | | | |] [|]| |]; simpl in *; auto.
  apply andb_true_iff in H1 as [-> H1]. simpl. auto.
  apply andb_true_iff in H1 as [-> H1]. simpl. auto.
Qed.

(** X3: With the STARTTLS flag set, the relay credentials never travel over a
    connection that has not been upgraded: in every run, each [login] comes
    after a [starttls] that succeeded on the same connection. *)
Theorem credentials_follow_upgrade P D N env st :
  read_relay_starttls P = true →
  credentials_guarded false (added st (handle_DATA P D N env st).2) = true.
Proof.
  intros Htls.
  apply (lift_handle_DATA P N (content env)
           (λ t, ∀ u, credentials_guarded u t = true) (λ _, True)).
  - done.
  - intros t1 t2 H1 H2 u. by apply credentials_guarded_app.
  - by intros [] He u.
  - intros rcpt domain host s _. run_mx_attempt N; by intros u.
  - intros rcpt port s _. run_relay_attempt P N;
      first [discriminate Htls|by intros u].
  - done.
  - by apply Forall_true.
Qed.

Lemma credentials_follow_upgrade_witness :
  credentials_guarded false
    (added empty_state
       (handle_DATA relay_platform good_disk good_net sample_envelope
          empty_state).2) = true.
Proof.
  apply (credentials_follow_upgrade relay_platform good_disk good_net
           sample_envelope empty_state).
  vm_compute. reflexivity.
Defined.

(** ** The store only grows *)

Lemma handle_DATA_keeps_files P D N env st p c :
  files st !! p = Some c → files (handle_DATA P D N env st).2 !! p = Some c.
Proof.
  intros Hp.
  pose proof (handle_DATA_run P D N env st) as Hrun. cbv zeta in Hrun.
  destruct (os_makedirs D (trace st) MAIL_DIR) as [e|].
  { by rewrite Hrun. }
  destruct Hrun as (i & Hi & Hrun). apply probe_found in Hi as (_ & Hfree & _).
  assert (msg_path i ≠ p) as Hne by (intros <-; congruence).
  destruct (open_write D _ (msg_path i) (content env)) as [|e [left_behind|]].
  - destruct Hrun as (d & _ & _ & ->). simpl. by rewrite lookup_insert_ne.
  - rewrite Hrun. simpl. by rewrite lookup_insert_ne.
  - by rewrite Hrun.
Qed.

(** X4: The handler never overwrites and never removes a file: whatever the
    sessions are and however each of them ends (accepted, refused, or
    raised), a file that was in the store before is there afterwards, with
    the same bytes. *)
Theorem stored_files_are_kept P D N envs st p c :
  files st !! p = Some c →
  files (serve P D N envs st).2 !! p = Some c.
Proof.
  revert st. induction envs as [|env envs IH]; intros st Hp; simpl; [done|].
  pose proof (handle_DATA_keeps_files P D N env st p c Hp) as Hkept.
  destruct (handle_DATA P D N env st) as [r st1].
  specialize (IH st1 Hkept).
  destruct (serve P D N envs st1) as [rs st2]. done.
Qed.

Lemma stored_files_are_kept_witness :
  files (serve relay_platform good_disk good_net
           [sample_envelope; odd_envelope] used_state).2 !! msg_path 1 =
    Some (b "Subject: earlier").
Proof.
  apply (stored_files_are_kept relay_platform good_disk good_net
           [sample_envelope; odd_envelope] used_state).
  vm_compute. reflexivity.
Defined.

(** ** No retries *)

Lemma deliver_queries_bound P N rcpt msg st :
  ∃ d,
    (_deliver_to_recipient P N rcpt msg st).2 =
      State (files st) (trace st ++ d) ∧
    (length (queries d) ≤ 1)%nat.
Proof.
  unfold _deliver_to_recipient, mbind, M_bind.
  destruct (read_relay_port P) as [port|]; simpl.
  2:{ exists []. destruct st. rewrite app_nil_r. simpl. split; [done|lia]. }
  assert (∀ s, ∃ d, (mx_delivery P N rcpt msg s).2 =
                      State (files s) (trace s ++ d) ∧
                    (length (queries d) ≤ 1)%nat) as Hmx.
  { intros s. destruct (mx_delivery_queries P N rcpt msg s) as (d & Hs & Hq).
    exists d. split; [done|]. rewrite Hq. case_match; simpl; lia. }
  destruct (truthy (getenv P "SMTP_RELAY_SERVER")); simpl; [|apply Hmx].
  destruct (relay_attempt_run P N port rcpt msg st)
    as (ok & d & Hrun & _ & Hq & _). cbv zeta in Hrun.
  unfold relay_attempt in Hrun. rewrite Hrun.
  destruct ok.
  - exists d. rewrite Hq. simpl. split; [done|lia].
  - destruct (Hmx (State (files st) (trace st ++ d))) as (d' & Hs & Hq').
    exists (d ++ d'). rewrite Hs. simpl.
    rewrite <- app_assoc, queries_app, Hq. done.
Qed.

Lemma for_each_queries_bound P N msg rcpts : ∀ st,
  ∃ d,
    for_each rcpts (deliver_logged P N msg) st =
      (Ret tt, State (files st) (trace st ++ d)) ∧
    (length (queries d) ≤ length rcpts)%nat.
Proof.
  induction rcpts as [|rcpt rcpts IH]; intros st; simpl.
  { exists []. destruct st. rewrite app_nil_r. simpl. split; [done|lia]. }
  unfold mbind, M_bind.
  destruct (deliver_logged_turn P N msg rcpt st) as (_ & _ & ->).
  destruct (deliver_queries_bound P N rcpt msg st) as (d & Hs & Hq).
  rewrite Hs. simpl.
  set (rec := failure_record rcpt (_deliver_to_recipient P N rcpt msg st).1).
  assert (queries rec = []) as Hrec.
  { subst rec. by destruct (_deliver_to_recipient P N rcpt msg st).1. }
  destruct (IH (State (files st) ((trace st ++ d) ++ rec))) as (d' & -> & Hq').
  exists (d ++ rec ++ d'). simpl. rewrite <- !app_assoc. split; [done|].
  rewrite !queries_app, Hrec, !length_app. simpl. lia.
Qed.

(** X5: The handler does not retry: a run makes at most one DNS query for each
    recipient of the envelope. *)
Theorem one_resolution_per_recipient P D N env st :
  (length (queries (added st (handle_DATA P D N env st).2)) ≤
   length (rcpt_tos env))%nat.
Proof.
  pose proof (handle_DATA_run P D N env st) as Hrun. cbv zeta in Hrun.
  destruct (os_makedirs D (trace st) MAIL_DIR) as [e|].
  { rewrite Hrun. simpl. rewrite added_app. simpl. lia. }
  destruct Hrun as (i & _ & Hrun).
  destruct (open_write D _ (msg_path i) (content env)) as [|e lb].
  - destruct Hrun as (d & Hloop & _ & ->).
    destruct (for_each_queries_bound P N (content env) (rcpt_tos env)
                (State (<[msg_path i:=content env]> (files st))
                   ((trace st ++ [EvMakedirs MAIL_DIR None]) ++
                    [EvWrite (msg_path i) (content env) None])))
      as (d' & Hloop' & Hq).
    rewrite Hloop in Hloop'. simpl in Hloop'.
    injection Hloop' as Heq%app_inv_head. subst d'.
    simpl. rewrite <- !app_assoc, added_app. done.
  - rewrite Hrun. simpl. rewrite <- !app_assoc, added_app. simpl. lia.
Qed.

(** ** The exception of a failed MX delivery *)

Lemma mx_loop_last_exception P N rcpt domain msg hosts : ∀ last_exc st e,
  (mx_loop P N rcpt domain msg hosts last_exc st).1 = Exc e →
  ∃ new,
    (mx_loop P N rcpt domain msg hosts last_exc st).2 =
      State (files st) (trace st ++ new) ∧
    match last hosts with
    | Some h =>
        last (warnings new) =
          Some (EvLog WARNING "Delivery to %s via %s failed: %s"
                  [ArgStr rcpt; ArgStr h; ArgExc e] None)
    | None => e = default (RuntimeError "MX delivery failed") last_exc ∧ new = []
    end.
Proof.
  induction hosts as [|host rest IH]; intros last_exc st e.
  { simpl. intros [= <-]. exists []. destruct st. by rewrite app_nil_r. }
  rewrite last_cons. simpl.
  destruct (mx_attempt_run P N rcpt domain msg host st)
    as (d & Hst & _ & Hw & _ & Hh).
  unfold mbind, M_bind, try.
  destruct (mx_attempt P N rcpt domain msg host st) as [[[]|e1|] st'];
    simpl in *; subst; [done| |done].
  set (w := EvLog WARNING "Delivery to %s via %s failed: %s"
              [ArgStr rcpt; ArgStr host; ArgExc e1] None).
  unfold logging_warning, emit. simpl. fold w. intros Hexc.
  destruct (IH (Some e1) (State (files st) ((trace st ++ d) ++ [w])) e Hexc)
    as (new & Hst' & Hlast).
  exists (d ++ [w] ++ new). rewrite Hst'. simpl. rewrite <- !app_assoc.
  split; [done|].
  rewrite warnings_app, Hw. simpl.
  change (warnings (w :: new)) with (w :: warnings new).
  destruct (last rest) as [h|].
  - rewrite last_cons, Hlast. done.
  - destruct Hlast as [-> ->]. done.
Qed.

(** X6: When the delivery to the MX hosts has tried at least one host and
    fails, the exception it raises is the one of the last host tried: the
    same that the last warning of the delivery reports. *)
Theorem mx_failure_is_last_hosts P N rcpt msg st e :
  (mx_delivery P N rcpt msg st).1 = Exc e →
  connects (added st (mx_delivery P N rcpt msg st).2) ≠ [] →
  ∃ h,
    last (connects (added st (mx_delivery P N rcpt msg st).2)) = Some (h, 25) ∧
    last (warnings (added st (mx_delivery P N rcpt msg st).2)) =
      Some (EvLog WARNING "Delivery to %s via %s failed: %s"
              [ArgStr rcpt; ArgStr h; ArgExc e] None).
Proof.
  unfold mx_delivery, _get_mx_hosts, dns_call, mbind, M_bind.
  destruct (split1 "@" rcpt !! 1%nat) as [domain|]; simpl.
  2:{ intros _ Hc. exfalso. apply Hc. destruct st. unfold added. simpl.
      by rewrite drop_all. }
  destruct (dns_resolve_MX N (trace st) domain) as [e'|answers]; simpl.
  { intros _ Hc. exfalso. apply Hc. by rewrite added_app. }
  destruct (snd <$> sorted _) as [|h hosts]; cbn -[mx_loop].
  { intros _ Hc. exfalso. apply Hc. by rewrite added_app. }
  intros Hexc _.
  set (s1 := State (files st) (trace st ++ [EvDns domain (inr answers)])) in *.
  destruct (mx_loop_last_exception P N rcpt domain msg (h :: hosts) None s1 e Hexc)
    as (new & Hst & Hlast).
  destruct (mx_loop_run P N rcpt domain msg (h :: hosts) None s1)
    as (k & new' & Hst' & _ & Hc & _ & Hres).
  rewrite Hexc in Hres. destruct Hres as [-> _].
  rewrite Hst in Hst'. injection Hst' as Heq%app_inv_head. subst new'.
  rewrite firstn_all in Hc.
  destruct (last (h :: hosts)) as [hl|] eqn:Hhl; [|by apply last_None in Hhl].
  exists hl. rewrite Hst. subst s1. simpl.
  rewrite <- app_assoc, added_app.
  change ([EvDns domain (inr answers)] ++ new)
    with (EvDns domain (inr answers) :: new).
  change (connects (EvDns domain (inr answers) :: new)) with (connects new).
  change (warnings (EvDns domain (inr answers) :: new)) with (warnings new).
  split; [|done].
  rewrite Hc. by rewrite fmap_last, Hhl.
Qed.

Lemma mx_failure_is_last_hosts_witness :
  ∃ h,
    last (connects (added empty_state
                      (mx_delivery plain_platform dead_smtp_net
                         "bob@example.org" (b "hi") empty_state).2)) =
      Some (h, 25) ∧
    last (warnings (added empty_state
                      (mx_delivery plain_platform dead_smtp_net
                         "bob@example.org" (b "hi") empty_state).2)) =
      Some (EvLog WARNING "Delivery to %s via %s failed: %s"
              [ArgStr "bob@example.org"; ArgStr h;
               ArgExc (SMTPException "Connection refused")] None).
Proof.
  apply (mx_failure_is_last_hosts plain_platform dead_smtp_net
           "bob@example.org" (b "hi") empty_state
           (SMTPException "Connection refused")).
  - vm_compute. reflexivity.
  - vm_compute. discriminate.
Defined.

(** ** Host names and sender addresses as they go on the wire *)

Lemma rstrip_last p s c : last_char (rstrip p s) = Some c → p c = false.
Proof.
  induction s as [|a s IH]; simpl; [done|].
  destruct (rstrip p s) as [|a' t] eqn:Hs.
  - destruct (p a) eqn:Hpa; simpl; [done|]. by intros [= <-].
  - intros Hc. by apply IH.
Qed.

(** X7: The resolver hands on one host name for each record of the answer,
    duplicates included, and none of the names ends with a dot. *)
Theorem mx_hosts_are_bare_names N domain st hosts :
  (_get_mx_hosts N domain st).1 = Ret hosts →
  ∃ answers,
    dns_resolve_MX N (trace st) domain = inr answers ∧
    length hosts = length answers ∧
    Forall (λ h, last_char h ≠ Some "."%char) hosts.
Proof.
  unfold _get_mx_hosts, dns_call, mbind, M_bind.
  destruct (dns_resolve_MX N (trace st) domain) as [e|answers]; simpl; [done|].
  intros [= <-]. exists answers. split; [done|]. unfold sorted. split.
  - by rewrite length_fmap, merge_sort_Permutation, length_fmap.
  - apply Forall_fmap. rewrite merge_sort_Permutation.
    apply Forall_fmap, Forall_forall. intros r _. simpl. intros Hlast.
    by apply rstrip_last in Hlast.
Qed.

Lemma mx_hosts_are_bare_names_witness :
  ∃ answers,
    dns_resolve_MX good_net (trace empty_state) "example.org" = inr answers ∧
    length ["mx2.example"; "mx1.example"] = length answers ∧
    Forall (λ h, last_char h ≠ Some "."%char) ["mx2.example"; "mx1.example"].
Proof.
  apply (mx_hosts_are_bare_names good_net "example.org" empty_state).
  vm_compute. reflexivity.
Defined.

Lemma all_chars_rev_app f s1 s2 :
  all_chars f (String.rev_app s1 s2) = all_chars f s1 && all_chars f s2.
Proof.
  revert s2. induction s1 as [|a s1 IH]; intros s2; simpl; [done|].
  rewrite IH. simpl. by destruct (f a), (all_chars f s1), (all_chars f s2).
Qed.

Lemma split_go_tokens cur s :
  from_option (all_chars (λ a, negb (isspace a))) true cur = true →
  Forall (λ t, all_chars (λ a, negb (isspace a)) t = true) (split_go cur s).
Proof.
  revert cur. induction s as [|a s IH]; intros cur Hcur; simpl.
  - destruct cur as [c|]; simpl; [|done]. constructor; [|done].
    unfold String.rev. rewrite all_chars_rev_app. simpl in *. by rewrite Hcur.
  - destruct (isspace a) eqn:Ha.
    + apply Forall_app. split; [|by apply IH].
      destruct cur as [c|]; simpl; [|done]. constructor; [|done].
      unfold String.rev. rewrite all_chars_rev_app. simpl in *. by rewrite Hcur.
    + apply IH. simpl. rewrite Ha. simpl. by destruct cur.
Qed.

Lemma all_chars_lstrip f p s :
  all_chars f s = true → all_chars f (lstrip p s) = true.
Proof.
  induction s as [|a s IH]; simpl; [done|]. intros [Ha Hs]%andb_true_iff.
  destruct (p a); [by apply IH|]. simpl. by rewrite Ha, Hs.
Qed.

Lemma all_chars_rstrip f p s :
  all_chars f s = true → all_chars f (rstrip p s) = true.
Proof.
  induction s as [|a s IH]; simpl; [done|]. intros [Ha Hs]%andb_true_iff.
  specialize (IH Hs). destruct (rstrip p s) as [|a' t].
  - destruct (p a); simpl; [done|]. by rewrite Ha.
  - simpl in *. by rewrite Ha, IH.
Qed.

Lemma lstrip_first p s a : first_char (lstrip p s) = Some a → p a = false.
Proof.
  induction s as [|a0 s IH]; simpl; [done|].
  destruct (p a0) eqn:Hp; [done|]. simpl. by intros [= <-].
Qed.

Lemma rstrip_first p s a :
  first_char (rstrip p s) = Some a → first_char s = Some a.
Proof.
  destruct s as [|a0 s]; simpl; [done|].
  destruct (rstrip p s); [destruct (p a0)|]; simpl; done.
Qed.

(** X8: When no relay user is set and the [From] header has an at sign, the
    sender that [envelope_from] returns is a bare token: it contains no
    whitespace, and it neither begins nor ends with an angle bracket, a
    line feed or a carriage return. *)
Theorem envelope_from_is_bare_token P content frm :
  truthy (getenv P "SMTP_RELAY_USERNAME") = false →
  email_From P content = HeaderStr frm →
  contains "@" frm = true →
  all_chars (λ a, negb (isspace a)) (envelope_from P content) = true ∧
  (∀ a, first_char (envelope_from P content) = Some a →
     a ∉ ["<"; ">"; "010"; "013"]%char) ∧
  (∀ a, last_char (envelope_from P content) = Some a →
     a ∉ ["<"; ">"; "010"; "013"]%char).
Proof.
  intros Huser Hfrom Hat. unfold envelope_from. rewrite Huser, Hfrom, Hat.
  assert (truthy (Some frm) = true) as -> by (by destruct frm).
  destruct (split_with_at frm Hat) as [tok Htok]. rewrite Htok.
  assert (all_chars (λ a, negb (isspace a)) tok = true) as Htoken.
  { apply last_Some_elem_of in Htok.
    pose proof (split_go_tokens None frm eq_refl) as Hall.
    rewrite Forall_forall in Hall. by apply Hall. }
  unfold strip. split_and!.
  - by apply all_chars_rstrip, all_chars_lstrip.
  - intros a Ha%rstrip_first%lstrip_first.
    unfold in_chars in Ha. by apply bool_decide_eq_false in Ha.
  - intros a Ha%rstrip_last.
    unfold in_chars in Ha. by apply bool_decide_eq_false in Ha.
Qed.

Lemma envelope_from_is_bare_token_witness :
  all_chars (λ a, negb (isspace a))
    (envelope_from parsing_platform alice_message) = true ∧
  (∀ a, first_char (envelope_from parsing_platform alice_message) = Some a →
     a ∉ ["<"; ">"; "010"; "013"]%char) ∧
  (∀ a, last_char (envelope_from parsing_platform alice_message) = Some a →
     a ∉ ["<"; ">"; "010"; "013"]%char).
Proof.
  apply (envelope_from_is_bare_token parsing_platform alice_message
           "Alice <alice@example.com>"); reflexivity.
Defined.

(** * The listing endpoint *)

Example splitlines_example :
  splitlines ("a" +:+ LF +:+ LF +:+ "b" +:+ CRLF +:+ "c" +:+ LF) =
    ["a"; ""; "b"; "c"] ∧
  splitlines "" = [] ∧ splitlines LF = [""].
Proof. split_and!; reflexivity. Qed.

Example list_messages_example :
  list_messages (folder_of [("msg-2.eml", "two"); ("msg-10.eml", "ten");
                            ("msg-1.eml", "one" +:+ LF +:+ "more")]) =
    inr ("--- msg-1.eml ---" +:+ LF +:+ "one" +:+ LF +:+ "more" +:+ LF +:+ LF +:+
         "--- msg-10.eml ---" +:+ LF +:+ "ten" +:+ LF +:+ LF +:+
         "--- msg-2.eml ---" +:+ LF +:+ "two").
Proof. vm_compute. reflexivity. Qed.

Lemma msg_path_name i : msg_path i = os_path_join MAIL_DIR (msg_name i).
Proof. reflexivity. Qed.

Lemma sorted_names_perm l : sorted_names l ≡ₚ l.
Proof. apply merge_sort_Permutation. Qed.

Lemma sorted_names_sorted l : StronglySorted String.le (sorted_names l).
Proof. apply (StronglySorted_merge_sort _). Qed.

Lemma read_blocks_first F fname rest out :
  read_blocks F (fname :: rest) = inr out →
  ∃ text out', out = block fname text :: out'.
Proof.
  simpl. destruct (read_text F _) as [e|text]; [done|].
  destruct (read_blocks F rest) as [e|out']; [done|].
  intros [= <-]. by eexists _, _.
Qed.

Lemma join_first sep x l a :
  first_char x = Some a → first_char (join sep (x :: l)) = Some a.
Proof. destruct x as [|c x]; [done|]. simpl. by destruct l. Qed.

(** X9: The listing answers "No messages" exactly when there is nothing to
    list: the mail directory does not exist, or it has no entry. *)
Theorem no_messages_iff_nothing_stored F text :
  list_messages F = inr text →
  (text = "No messages" ↔
   os_path_isdir F MAIL_DIR = false ∨ os_listdir F MAIL_DIR = inr []).
Proof.
  unfold list_messages, message_blocks.
  destruct (os_path_isdir F MAIL_DIR); cbn [negb].
  2:{ intros [= <-]. split; auto. }
  destruct (os_listdir F MAIL_DIR) as [e|names]; [done|].
  destruct (sorted_names names) as [|fname rest] eqn:Hsorted.
  - assert (names = []) as ->.
    { apply Permutation_nil_r. by rewrite <- Hsorted, sorted_names_perm. }
    intros [= <-]. split; auto.
  - assert (names ≠ []) as Hne.
    { intros ->. unfold sorted_names in Hsorted. done. }
    destruct (read_blocks F (fname :: rest)) as [e|out] eqn:Hout; [done|].
    destruct (read_blocks_first _ _ _ _ Hout) as (t & out' & ->).
    pose proof (join_first (LF +:+ LF) (block fname t) out' "-"%char eq_refl)
      as Hfirst.
    destruct (join (LF +:+ LF) (block fname t :: out')) as [|c s]; [done|].
    injection Hfirst as ->. intros [= <-].
    split; [done|]. intros [?|[= ->]]; done.
Qed.

Lemma no_messages_iff_nothing_stored_witness :
  "No messages" = "No messages" ↔
  os_path_isdir (folder_of []) MAIL_DIR = false ∨
  os_listdir (folder_of []) MAIL_DIR = inr [].
Proof.
  apply (no_messages_iff_nothing_stored (folder_of []) "No messages").
  reflexivity.
Defined.

(** X10: The listing does not depend on the order in which the system returns
    the directory entries: two directories with the same files give the same
    answer. *)
Theorem listing_ignores_directory_order F F' names names' :
  os_path_isdir F MAIL_DIR = os_path_isdir F' MAIL_DIR →
  (∀ p, read_text F p = read_text F' p) →
  os_listdir F MAIL_DIR = inr names →
  os_listdir F' MAIL_DIR = inr names' →
  names ≡ₚ names' →
  list_messages F = list_messages F'.
Proof.
  intros Hdir Hread Hnames Hnames' Hperm.
  unfold list_messages, message_blocks. rewrite Hdir, Hnames, Hnames'.
  assert (sorted_names names = sorted_names names') as ->.
  { apply (StronglySorted_unique String.le); [apply sorted_names_sorted..|].
    by rewrite !sorted_names_perm. }
  assert (∀ l, read_blocks F l = read_blocks F' l) as ->; [|done].
  induction l as [|fname l IH]; simpl; [done|]. by rewrite Hread, IH.
Qed.

Lemma listing_ignores_directory_order_witness :
  list_messages (folder_of [("msg-2.eml", "two"); ("msg-1.eml", "one")]) =
  list_messages (folder_of [("msg-1.eml", "one"); ("msg-2.eml", "two")]).
Proof.
  apply (listing_ignores_directory_order
           (folder_of [("msg-2.eml", "two"); ("msg-1.eml", "one")])
           (folder_of [("msg-1.eml", "one"); ("msg-2.eml", "two")])
           ["msg-2.eml"; "msg-1.eml"] ["msg-1.eml"; "msg-2.eml"]).
  - reflexivity.
  - intros p. simpl.
    destruct (decide (os_path_join MAIL_DIR "msg-2.eml" = p)) as [<-|H2];
      [reflexivity|].
    destruct (decide (os_path_join MAIL_DIR "msg-1.eml" = p)) as [<-|H1];
      [reflexivity|].
    repeat (case_decide; [done|]). simpl.
    repeat (case_decide; [done|]). done.
  - reflexivity.
  - reflexivity.
  - apply perm_swap.
Defined.

Lemma read_blocks_app F l1 l2 out :
  read_blocks F (l1 ++ l2) = inr out →
  ∃ o1 o2, read_blocks F l1 = inr o1 ∧ read_blocks F l2 = inr o2 ∧
           out = o1 ++ o2.
Proof.
  revert out. induction l1 as [|fname l1 IH]; intros out; simpl.
  { intros ->. by exists [], out. }
  destruct (read_text F _) as [e|text]; [done|].
  destruct (read_blocks F (l1 ++ l2)) as [e|out'] eqn:Hrest; [done|].
  intros [= <-]. destruct (IH out' eq_refl) as (o1 & o2 & -> & -> & ->).
  by exists (block fname text :: o1), o2.
Qed.

Lemma sorted_before (l : list string) x y :
  StronglySorted String.le l → x ∈ l → y ∈ l → String.le x y → x ≠ y →
  ∃ l1 l2 l3, l = l1 ++ x :: l2 ++ y :: l3.
Proof.
  intros Hsorted Hx Hy Hle Hne.
  apply list_elem_of_split in Hx as (l1 & r & ->).
  apply elem_of_app in Hy as [Hy|Hy].
  - exfalso. apply Hne. apply (anti_symm String.le); [done|].
    apply (StronglySorted_app_1_elem_of String.le l1 (x :: r)); [done..|].
    apply list_elem_of_here.
  - apply elem_of_cons in Hy as [->|Hy]; [done|].
    apply list_elem_of_split in Hy as (l2 & l3 & ->). by exists l1, l2, l3.
Qed.

Lemma two_digits_sort_first i j :
  (2 ≤ i ≤ 9)%nat → (10 ≤ j ≤ 19)%nat →
  String.le (msg_name j) (msg_name i) ∧ msg_name j ≠ msg_name i.
Proof.
  intros Hi Hj.
  assert (Forall (λ i, Forall (λ j, String.le (msg_name j) (msg_name i) ∧
                                    msg_name j ≠ msg_name i)
                         (seq 10 10)) (seq 2 8)) as Hall.
  { repeat (constructor; [repeat (constructor; [by vm_compute|]); constructor|]).
    constructor. }
  rewrite Forall_forall in Hall.
  specialize (Hall i). rewrite Forall_forall in Hall.
  apply Hall; apply elem_of_seq; lia.
Qed.

(** X11: The listing is ordered by file name, not by message number: when the
    directory holds the files of a message numbered 2 to 9 and of one
    numbered 10 to 19, the block of the latter comes first. *)
Theorem listing_is_ordered_by_name F names out i j :
  os_listdir F MAIL_DIR = inr names →
  msg_name i ∈ names → msg_name j ∈ names →
  (2 ≤ i ≤ 9)%nat → (10 ≤ j ≤ 19)%nat →
  message_blocks F = inr out →
  ∃ ti tj o1 o2 o3,
    read_text F (msg_path i) = inr ti ∧
    read_text F (msg_path j) = inr tj ∧
    out = o1 ++ block (msg_name j) tj :: o2 ++ block (msg_name i) ti :: o3.
Proof.
  intros Hnames Hi Hj Hri Hrj. unfold message_blocks. rewrite Hnames.
  destruct (two_digits_sort_first i j Hri Hrj) as [Hle Hne].
  destruct (sorted_before (sorted_names names) (msg_name j) (msg_name i))
    as (l1 & l2 & l3 & ->);
    [apply sorted_names_sorted|by rewrite sorted_names_perm..|done|done|].
  intros (o1 & r1 & _ & Hr1 & ->)%read_blocks_app.
  simpl in Hr1. rewrite <- msg_path_name in Hr1.
  destruct (read_text F (msg_path j)) as [e|tj]; [done|].
  destruct (read_blocks F (l2 ++ msg_name i :: l3)) as [e|r2] eqn:Hr2; [done|].
  injection Hr1 as <-.
  apply read_blocks_app in Hr2 as (o2 & r3 & _ & Hr3 & ->).
  simpl in Hr3. rewrite <- msg_path_name in Hr3.
  destruct (read_text F (msg_path i)) as [e|ti]; [done|].
  destruct (read_blocks F l3) as [e|o3]; [done|].
  injection Hr3 as <-. by exists ti, tj, o1, o2, o3.
Qed.

Lemma listing_is_ordered_by_name_witness :
  ∃ ti tj o1 o2 o3,
    read_text (folder_of [("msg-2.eml", "two"); ("msg-10.eml", "ten")])
      (msg_path 2) = inr ti ∧
    read_text (folder_of [("msg-2.eml", "two"); ("msg-10.eml", "ten")])
      (msg_path 10) = inr tj ∧
    [block "msg-10.eml" "ten"; block "msg-2.eml" "two"] =
      o1 ++ block (msg_name 10) tj :: o2 ++ block (msg_name 2) ti :: o3.
Proof.
  apply (listing_is_ordered_by_name
           (folder_of [("msg-2.eml", "two"); ("msg-10.eml", "ten")])
           ["msg-2.eml"; "msg-10.eml"]
           [block "msg-10.eml" "ten"; block "msg-2.eml" "two"] 2 10).
  - reflexivity.
  - vm_compute. apply list_elem_of_here.
  - vm_compute. apply list_elem_of_further, list_elem_of_here.
  - lia.
  - lia.
  - vm_compute. reflexivity.
Defined.

Lemma read_blocks_fails F l name e :
  name ∈ l → read_text F (os_path_join MAIL_DIR name) = inl e →
  ∃ e', read_blocks F l = inl e'.
Proof.
  intros Hin Hread. induction l as [|fname l IH]; [by apply elem_of_nil in Hin|].
  simpl. apply elem_of_cons in Hin as [<-|Hin].
  - rewrite Hread. by eexists.
  - destruct (read_text F (os_path_join MAIL_DIR fname)); [by eexists|].
    destruct (IH Hin) as [e' ->]. by eexists.
Qed.

(** X12: One file that cannot be read (one that is not UTF-8, for instance)
    makes the whole listing fail: no part of the other messages is
    returned. *)
Theorem unreadable_file_fails_listing F names name e :
  os_path_isdir F MAIL_DIR = true →
  os_listdir F MAIL_DIR = inr names →
  name ∈ names →
  read_text F (os_path_join MAIL_DIR name) = inl e →
  ∃ e', list_messages F = inl e'.
Proof.
  intros Hdir Hnames Hin Hread.
  unfold list_messages, message_blocks. rewrite Hdir, Hnames. simpl.
  destruct (read_blocks_fails F (sorted_names names) name e) as [e' ->];
    [by rewrite sorted_names_perm|done|by eexists].
Qed.

Lemma unreadable_file_fails_listing_witness :
  ∃ e', list_messages broken_folder = inl e'.
Proof.
  apply (unreadable_file_fails_listing broken_folder
           ["msg-1.eml"; "msg-2.eml"] "msg-2.eml"
           (ValueError "'utf-8' codec can't decode byte")).
  - reflexivity.
  - reflexivity.
  - apply list_elem_of_further, list_elem_of_here.
  - reflexivity.
Defined.

(** * The sending side *)

(** ** Loading the configuration *)

Lemma truthy_Some o : truthy o = true ↔ ∃ s, o = Some s ∧ s ≠ "".
Proof.
  split.
  - destruct o as [[|a s]|]; [done| |done]. intros _. by eexists.
  - intros (s & -> & Hs). by destruct s.
Qed.

(** X13: [get_smtp_config] returns exactly when [load_dotenv()] returns, the
    server, the port and the sender address are all set and not empty, and
    [int] accepts the port.  The sender it returns is then always
    [SENDER_EMAIL]: the user name never stands in for it (leaving
    [SENDER_EMAIL] out is an error). *)
Theorem config_is_loaded_iff dotenv getenv cfg :
  Sender.get_smtp_config dotenv getenv = inr cfg ↔
  dotenv = None ∧
  ∃ srv snd,
    getenv "SMTP_SERVER" = Some srv ∧ srv ≠ "" ∧
    getenv "SENDER_EMAIL" = Some snd ∧ snd ≠ "" ∧
    truthy (getenv "SMTP_PORT") = true ∧
    int (str_of (getenv "SMTP_PORT")) = Some (Sender.port cfg) ∧
    cfg = {| Sender.server := Some srv;
             Sender.port := Sender.port cfg;
             Sender.username := getenv "SMTP_USERNAME";
             Sender.password := getenv "SMTP_PASSWORD";
             Sender.sender := snd;
             Sender.no_auth :=
               bool_decide (getenv "SMTP_NO_AUTH" ∈
                              [Some "1"; Some "true"; Some "True"]) |}.
Proof.
  unfold Sender.get_smtp_config.
  destruct dotenv as [e|]; [split; [done|by intros [? _]]|].
  rewrite !filter_cons, filter_nil.
  split.
  - destruct (truthy (getenv "SMTP_SERVER")) eqn:Hsrv;
      [|by repeat case_decide].
    destruct (truthy (getenv "SMTP_PORT")) eqn:Hport;
      [|by repeat case_decide].
    destruct (truthy (getenv "SENDER_EMAIL")) eqn:Hsnd;
      [|by repeat case_decide].
    repeat (case_decide; [done|]). simpl.
    destruct (int (str_of (getenv "SMTP_PORT"))) as [n|]; [|done].
    intros [= <-]. simpl.
    apply truthy_Some in Hsrv as (srv & Hsrv & ?).
    apply truthy_Some in Hsnd as (snd & Hsnd & ?).
    split; [done|]. exists srv, snd. rewrite Hsrv, Hsnd. done.
  - intros (_ & srv & snd & Hsrv & ? & Hsnd & ? & Hport & Hint & ->).
    assert (truthy (getenv "SMTP_SERVER") = true) as Hs
      by (apply truthy_Some; eauto).
    assert (truthy (getenv "SENDER_EMAIL") = true) as He
      by (apply truthy_Some; eauto).
    rewrite Hs, He, Hport.
    repeat (case_decide; [done|]). simpl in *. rewrite Hint.
    by rewrite Hsrv, Hsnd.
Qed.

Lemma config_is_loaded_iff_witness :
  Sender.get_smtp_config None sender_env =
    inr {| Sender.server := Some "smtp_relay"; Sender.port := 587;
           Sender.username := Some "user@example.org";
           Sender.password := Some "secret";
           Sender.sender := "me@example.org"; Sender.no_auth := false |}.
Proof.
  apply (proj2 (config_is_loaded_iff None sender_env _)).
  split; [reflexivity|].
  exists "smtp_relay", "me@example.org".
  split_and!; [reflexivity|discriminate|reflexivity|discriminate
              |reflexivity|reflexivity|reflexivity].
Defined.

(** X14: The errors of [get_smtp_config] are of three kinds only.  When
    [load_dotenv()] raises, the error is its exception, as raised.  When it
    returns and some of the three required settings is unset or empty, a
    [KeyError] names exactly the missing ones, in the order server, port,
    sender, whatever the port setting holds.  Otherwise [int] does not
    accept the port and the error is the [ValueError] "SMTP_PORT must be an
    integer"; the error "SMTP_PORT must be provided" is never raised. *)
Theorem config_errors_are_three dotenv getenv exc :
  Sender.get_smtp_config dotenv getenv = inl exc →
  (∃ e, dotenv = Some e ∧ exc = Sender.Raised e) ∨
  (dotenv = None ∧
   ∃ missing,
     missing ≠ [] ∧
     missing `sublist_of` ["SMTP_SERVER"; "SMTP_PORT"; "SENDER_EMAIL"] ∧
     (∀ k, k ∈ missing ↔
           truthy (getenv k) = false ∧
           k ∈ ["SMTP_SERVER"; "SMTP_PORT"; "SENDER_EMAIL"]) ∧
     exc = Sender.KeyError ("Missing required environment variables: " +:+
                            join ", " missing)) ∨
  (dotenv = None ∧
   exc = Sender.Raised (ValueError "SMTP_PORT must be an integer") ∧
   Forall (λ k, truthy (getenv k) = true)
     ["SMTP_SERVER"; "SMTP_PORT"; "SENDER_EMAIL"] ∧
   int (str_of (getenv "SMTP_PORT")) = None).
Proof.
  unfold Sender.get_smtp_config.
  destruct dotenv as [e|]; [intros [= <-]; left; by exists e|].
  intros Hexc. right. revert Hexc.
  set (required := ["SMTP_SERVER"; "SMTP_PORT"; "SENDER_EMAIL"]).
  destruct (filter (λ k, truthy (getenv k) = false) required)
    as [|k missing] eqn:Hmissing.
  - assert (Forall (λ k, truthy (getenv k) = true) required) as Hall.
    { apply Forall_forall. intros k Hk.
      destruct (truthy (getenv k)) eqn:Hv; [done|].
      by pose proof (filter_nil_not_elem_of _ _ k Hmissing Hv). }
    assert (truthy (getenv "SMTP_PORT") = true) as ->.
    { rewrite Forall_forall in Hall. apply Hall. subst required. present. }
    simpl. destruct (int (str_of (getenv "SMTP_PORT"))); [done|].
    intros [= <-]. by right.
  - intros [= <-]. left. split; [done|].
    exists (k :: missing). split_and!; [done| | |done].
    + rewrite <- Hmissing. apply sublist_filter.
    + intros k'. rewrite <- Hmissing.
      apply (list_elem_of_filter (λ k, truthy (getenv k) = false)).
Qed.

Lemma config_errors_are_three_witness :
  (∃ e, @None exn = Some e ∧
        Sender.KeyError "Missing required environment variables: SENDER_EMAIL" =
        Sender.Raised e) ∨
  (@None exn = None ∧
   ∃ missing,
     missing ≠ [] ∧
     missing `sublist_of` ["SMTP_SERVER"; "SMTP_PORT"; "SENDER_EMAIL"] ∧
     (∀ k, k ∈ missing ↔
           truthy (no_sender_env k) = false ∧
           k ∈ ["SMTP_SERVER"; "SMTP_PORT"; "SENDER_EMAIL"]) ∧
     Sender.KeyError "Missing required environment variables: SENDER_EMAIL" =
     Sender.KeyError ("Missing required environment variables: " +:+
                      join ", " missing)) ∨
  (@None exn = None ∧
   Sender.KeyError "Missing required environment variables: SENDER_EMAIL" =
     Sender.Raised (ValueError "SMTP_PORT must be an integer") ∧
   Forall (λ k, truthy (no_sender_env k) = true)
     ["SMTP_SERVER"; "SMTP_PORT"; "SENDER_EMAIL"] ∧
   int (str_of (no_sender_env "SMTP_PORT")) = None).
Proof.
  apply (config_errors_are_three None no_sender_env
           (Sender.KeyError "Missing required environment variables: SENDER_EMAIL")).
  vm_compute. reflexivity.
Defined.

(** A port setting that [str.strip] would clean but [int] refuses, and an
    unreadable [.env] file. *)
Example get_smtp_config_example :
  Sender.get_smtp_config None
    (os_getenv (list_to_map
       [("SMTP_SERVER", "smtp_relay"); ("SMTP_PORT", "587" +:+ String "028" "");
        ("SENDER_EMAIL", "me@example.org")])) =
    inl (Sender.Raised (ValueError "SMTP_PORT must be an integer")) ∧
  Sender.get_smtp_config (Some (OSError "Permission denied: '.env'")) sender_env =
    inl (Sender.Raised (OSError "Permission denied: '.env'")).
Proof. split; vm_compute; reflexivity. Qed.

(** ** Sending a message *)

Ltac mailer_cases L :=
  repeat match goal with
         | |- context [Sender.smtplib_call L ?t ?o] =>
             destruct (Sender.smtplib_call L t o) eqn:?; simpl
         | |- context [Sender.as_string L ?m] =>
             destruct (Sender.as_string L m) eqn:?; simpl
         | |- context [disconnected ?e] =>
             destruct (disconnected e) eqn:?; simpl
         end.

Ltac split_end :=
  first [ by eexists [], _, _ | by eexists [_], _, _ | by eexists [_; _], _, _
        | by eexists [_; _; _], _, _ | by eexists [_; _; _; _], _, _
        | by eexists [_; _; _; _; _], _, _ ].

(** One call of [send_email], whatever the server does: it returns or
    raises; it logs in only on a connection that is secured; it transmits at
    most once, to the recipient alone; and when it returns, the server has
    accepted the transmission, and the closing [QUIT] that followed went
    through or met a connection that the server had dropped. *)
Lemma send_email_run L recipient subject body smtp_server smtp_port
    username password sender no_auth t0 :
  let from_addr := match sender with None => username | Some _ => sender end in
  let message := {| Sender.mime_body := body; Sender.mime_Subject := subject;
                    Sender.mime_From := from_addr;
                    Sender.mime_To := recipient |} in
  ∃ res new,
    Sender.send_email L recipient subject body smtp_server smtp_port
      username password sender no_auth t0 = (res, t0 ++ new) ∧
    res ≠ Hang ∧
    login_secured false new = true ∧
    (length (filter (λ c, Is_true (is_sendmail c)) new) ≤ 1)%nat ∧
    Forall (addressed L from_addr recipient message) new ∧
    (res = Ret tt →
       ∃ before text q,
         new = before ++
               [Sender.Call (Sender.Sendmail from_addr [recipient] text) None;
                Sender.Call Sender.Quit q] ∧
         exit_passed q = true) ∧
    (no_auth || bool_decide (smtp_port = 25) = true →
       Forall (λ c, is_plain c = true) new).
Proof.
  intros from_addr message. subst from_addr message.
  unfold Sender.send_email, Sender.with_server, Sender.server_exit,
    Sender.perform, Sender.render, Sender.attempt, Sender.throw, mbind,
    Sender.C_bind, mret, Sender.C_ret.
  destruct (no_auth || bool_decide (smtp_port = 25));
    [|destruct (bool_decide (smtp_port = 465))];
    simpl; mailer_cases L;
    (eexists _, _; split_and!;
     [rewrite <- ?app_assoc; simpl; reflexivity
     |done
     |reflexivity
     |simpl; lia
     |repeat (constructor; [by unfold addressed|]); constructor
     |first [done|intros _; split_end]
     |first [done|intros _; by repeat constructor]]).
Qed.

(** X15: With [no_auth] set, or on port 25, [send_email] uses a plain connection
    and nothing else: it connects without TLS, transmits and quits, and
    never logs in or upgrades, whether credentials are given or not and
    whatever the port is (465 included). *)
Theorem plain_mode_never_authenticates L recipient subject body smtp_server
    smtp_port username password sender no_auth t0 :
  no_auth = true ∨ smtp_port = 25 →
  ∃ new,
    (Sender.send_email L recipient subject body smtp_server smtp_port
       username password sender no_auth t0).2 = t0 ++ new ∧
    Forall (λ c, is_plain c = true) new.
Proof.
  intros Hmode.
  destruct (send_email_run L recipient subject body smtp_server smtp_port
              username password sender no_auth t0)
    as (res & new & Hrun & _ & _ & _ & _ & _ & Hplain).
  exists new. rewrite Hrun. split; [done|]. apply Hplain.
  destruct Hmode as [->| ->]; [done|]. by rewrite orb_true_r.
Qed.

Lemma plain_mode_never_authenticates_witness :
  ∃ new,
    (Sender.send_email good_mailer "bob@example.org" "Hi" "Hello"
       (Some "smtp_relay") 465 (Some "user@example.org") (Some "secret")
       None true []).2 = [] ++ new ∧
    Forall (λ c, is_plain c = true) new.
Proof.
  apply (plain_mode_never_authenticates good_mailer "bob@example.org" "Hi"
           "Hello" (Some "smtp_relay") 465 (Some "user@example.org")
           (Some "secret") None true []).
  left. reflexivity.
Defined.

(** X16: [send_email] never sends the credentials over a connection that is not
    secured: in every mode and whatever the server answers, each [login]
    comes after the connection was set up by [SMTP_SSL] or upgraded by a
    [starttls] that succeeded. *)
Theorem login_needs_secured_connection L recipient subject body smtp_server
    smtp_port username password sender no_auth t0 :
  ∃ new,
    (Sender.send_email L recipient subject body smtp_server smtp_port
       username password sender no_auth t0).2 = t0 ++ new ∧
    login_secured false new = true.
Proof.
  destruct (send_email_run L recipient subject body smtp_server smtp_port
              username password sender no_auth t0)
    as (res & new & Hrun & _ & Hsec & _).
  exists new. by rewrite Hrun.
Qed.

(** X17: [send_email] transmits at most once, to the recipient alone, from the
    sender given (the user name when none is), the rendering of the message
    it has built; and it returns only after the server has accepted that
    transmission.  The closing [QUIT] is then the last call, and it either
    went through or raised [SMTPServerDisconnected], which leaving the
    [with] block drops: a server that takes the message and hangs up does
    not make [send_email] fail. *)
Theorem send_email_transmits_once L recipient subject body smtp_server
    smtp_port username password sender no_auth t0 :
  let from_addr := match sender with None => username | Some _ => sender end in
  let message := {| Sender.mime_body := body; Sender.mime_Subject := subject;
                    Sender.mime_From := from_addr;
                    Sender.mime_To := recipient |} in
  let run := Sender.send_email L recipient subject body smtp_server smtp_port
               username password sender no_auth t0 in
  ∃ new,
    run.2 = t0 ++ new ∧
    (length (filter (λ c, Is_true (is_sendmail c)) new) ≤ 1)%nat ∧
    Forall (addressed L from_addr recipient message) new ∧
    (run.1 = Ret tt →
       ∃ before text q,
         new = before ++
               [Sender.Call (Sender.Sendmail from_addr [recipient] text) None;
                Sender.Call Sender.Quit q] ∧
         exit_passed q = true).
Proof.
  intros from_addr message run. subst run.
  destruct (send_email_run L recipient subject body smtp_server smtp_port
              username password sender no_auth t0)
    as (res & new & Hrun & _ & _ & Hone & Haddr & Hret & _).
  exists new. rewrite Hrun. done.
Qed.

Lemma send_email_transmits_once_witness :
  ∃ before text q,
    (Sender.send_email hangup_mailer "bob@example.org" "Hi" "Hello"
       (Some "smtp_relay") 587 (Some "user@example.org") (Some "secret")
       None false []).2 =
      before ++
      [Sender.Call (Sender.Sendmail (Some "user@example.org")
                      ["bob@example.org"] text) None;
       Sender.Call Sender.Quit q] ∧
    exit_passed q = true.
Proof.
  destruct (send_email_transmits_once hangup_mailer "bob@example.org" "Hi"
              "Hello" (Some "smtp_relay") 587 (Some "user@example.org")
              (Some "secret") None false [])
    as (new & Hnew & _ & _ & Hret).
  destruct Hret as (before & text & q & -> & Hq); [vm_compute; reflexivity|].
  exists before, text, q. split; [exact Hnew|exact Hq].
Defined.

(** The server of [hangup_mailer] drops the connection at the closing
    [QUIT]; [send_email] returns all the same. *)
Example send_email_hangup_example :
  Sender.send_email hangup_mailer "bob@example.org" "Hi" "Hello"
    (Some "smtp_relay") 25 None None (Some "me@example.org") true [] =
    (Ret tt,
     [Sender.Call (Sender.Connect (Some "smtp_relay") 25 30) None;
      Sender.Call (Sender.Sendmail (Some "me@example.org") ["bob@example.org"]
                     ("Subject: Hi" +:+ LF +:+ LF +:+ "Hello")) None;
      Sender.Call Sender.Quit
        (Some (SMTPServerDisconnected "Connection unexpectedly closed"))]).
Proof. vm_compute. reflexivity. Qed.

(** ** The form *)

(** X18: A submission with an empty recipient, subject or message is refused at
    once: the configuration is not read and the server is not contacted. *)
Theorem incomplete_form_is_refused L getenv recipient subject body t0 :
  recipient = "" ∨ subject = "" ∨ body = "" →
  Sender.submit L getenv recipient subject body t0 =
    (Ret (Sender.st_error "All fields are required to send an email."), t0).
Proof.
  unfold Sender.submit. intros [->|[->| ->]]; simpl; [done| |].
  - by destruct recipient.
  - by destruct recipient, subject.
Qed.

Lemma incomplete_form_is_refused_witness :
  Sender.submit good_mailer sender_env "bob@example.org" "" "Hello" [] =
    (Ret (Sender.st_error "All fields are required to send an email."), []).
Proof.
  apply (incomplete_form_is_refused good_mailer sender_env "bob@example.org"
           "" "Hello" []).
  right. left. reflexivity.
Defined.

Lemma config_error_kinds dotenv getenv exc :
  Sender.get_smtp_config dotenv getenv = inl exc →
  (∃ e, dotenv = Some e ∧ exc = Sender.Raised e) ∨
  (∃ msg, exc = Sender.KeyError msg) ∨
  (∃ msg, exc = Sender.Raised (ValueError msg)).
Proof.
  unfold Sender.get_smtp_config.
  destruct dotenv as [e|]; [intros [= <-]; left; by exists e|].
  intros Hexc. right. revert Hexc.
  destruct (filter _ _); [|intros [= <-]; left; by eexists].
  destruct (negb _); [intros [= <-]; right; by eexists|].
  destruct (int _); [done|]. intros [= <-]. right. by eexists.
Qed.

(** X19: Every submission ends with a message on the page, or with an
    exception that [load_dotenv()] raised and that is not a [ValueError]:
    the handler catches [KeyError] and [ValueError] around
    [get_smtp_config] and every exception of [send_email], and nothing
    else.  When such an exception leaves the handler, the server has not
    been contacted.  The message of success names the recipient as typed,
    and it is shown only after the server has accepted a transmission, from
    the configured sender address to the recipient with the surrounding
    whitespace removed; the closing [QUIT] that followed went through or
    met a connection that the server had dropped. *)
Theorem submission_answers_unless_dotenv_raises L getenv recipient subject
    body t0 :
  ∃ res new,
    Sender.submit L getenv recipient subject body t0 = (res, t0 ++ new) ∧
    match res with
    | Ret fb =>
        ∀ text, fb = Sender.st_success text →
          text = "Email successfully sent to " +:+ recipient +:+ "!" ∧
          ∃ cfg before msg q,
            Sender.get_smtp_config (Sender.load_dotenv L) getenv = inr cfg ∧
            new = before ++
                  [Sender.Call (Sender.Sendmail (Some (Sender.sender cfg))
                                  [strip isspace recipient] msg) None;
                   Sender.Call Sender.Quit q] ∧
            exit_passed q = true
    | Exc e =>
        Sender.load_dotenv L = Some e ∧ (∀ msg, e ≠ ValueError msg) ∧ new = []
    | Hang => False
    end.
Proof.
  unfold Sender.submit.
  destruct (negb (truthy (Some recipient)) || negb (truthy (Some subject))
            || negb (truthy (Some body))).
  { eexists _, []. rewrite app_nil_r. split; [done|]. by intros text [=]. }
  destruct (Sender.get_smtp_config (Sender.load_dotenv L) getenv)
    as [exc|cfg] eqn:Hcfg.
  { destruct (config_error_kinds _ _ _ Hcfg)
      as [(e & Hload & ->)|[[msg ->]|[msg ->]]].
    - destruct e;
        (eexists _, []; rewrite app_nil_r; split; [done|];
         first [by intros text [=] | by rewrite Hload]).
    - eexists _, []. rewrite app_nil_r. split; [done|]. by intros text [=].
    - eexists _, []. rewrite app_nil_r. split; [done|]. by intros text [=]. }
  destruct (send_email_run L (strip isspace recipient) (strip isspace subject)
              body (Sender.server cfg) (Sender.port cfg) (Sender.username cfg)
              (Sender.password cfg) (Some (Sender.sender cfg))
              (Sender.no_auth cfg) t0)
    as (res & new & Hrun & Hh & _ & _ & _ & Hret & _).
  unfold mbind, Sender.C_bind, Sender.attempt. rewrite Hrun.
  destruct res as [[]|e|]; [| |done].
  - eexists _, new. split; [done|]. intros text [= <-]. split; [done|].
    destruct (Hret eq_refl) as (before & msg & q & -> & Hq).
    by exists cfg, before, msg, q.
  - eexists _, new. split; [done|]. by intros text [=].
Qed.

Lemma submission_answers_unless_dotenv_raises_witness :
  ∃ cfg before msg q,
    Sender.get_smtp_config None sender_env = inr cfg ∧
    (Sender.submit hangup_mailer sender_env " bob@example.org " "Hi" "Hello" []).2 =
      before ++
      [Sender.Call (Sender.Sendmail (Some (Sender.sender cfg))
                      ["bob@example.org"] msg) None;
       Sender.Call Sender.Quit q] ∧
    exit_passed q = true.
Proof.
  destruct (submission_answers_unless_dotenv_raises hangup_mailer sender_env
              " bob@example.org " "Hi" "Hello" [])
    as (res & new & Hrun & Hok).
  assert (res = Ret (Sender.st_success
                       "Email successfully sent to  bob@example.org !")) as ->.
  { revert Hrun. vm_compute. by intros [= <- _]. }
  destruct (Hok "Email successfully sent to  bob@example.org !" eq_refl)
    as (_ & cfg & before & msg & q & Hcfg & -> & Hq).
  exists cfg, before, msg, q. split_and!; [exact Hcfg|by rewrite Hrun|exact Hq].
Defined.

(** With a [.env] file that cannot be read, the [OSError] of [load_dotenv()]
    leaves the handler: no message is shown. *)
Example submit_unreadable_dotenv_example :
  Sender.submit unreadable_dotenv_mailer sender_env "bob@example.org" "Hi"
    "Hello" [] =
    (Exc (OSError "Permission denied: '.env'"), []).
Proof. vm_compute. reflexivity. Qed.
